(** * TypeSet element checks of [aws/internal/tfawsresource/testing.go]

    A shallow embedding of the two acceptance-test helpers
    [TestCheckTypeSetElemNestedAttrs] and [TestCheckTypeSetElemAttr],
    which search the flattened attribute map of a Terraform resource for
    an element of a set addressed through a path ending in the sentinel
    ["*"].

    Go maps are [gmap string _].  A [range] over a map visits every entry
    once in an order the language leaves open, so each check takes the
    order chosen by the runtime as an argument ([Runtime]); an index that
    is out of range is a run-time panic and is an outcome of its own. *)

From Stdlib Require Import String Ascii List Arith Lia Permutation.
From stdpp Require Import gmap strings list fin_maps.

Local Open Scope string_scope.
Local Open Scope nat_scope.

(** ** The pieces of package [strings] the file uses *)

Module gostrings.

(** [strings.Split(s, sep)] for a separator of one byte: the substrings
    of [s] between the occurrences of [sep]; a string without [sep]
    (the empty one too) gives the one-element slice [[s]]. *)
Fixpoint Split (s : string) (sep : ascii) : list string :=
  match s with
  | EmptyString => [EmptyString]
  | String c s' =>
      if Ascii.eqb c sep then EmptyString :: Split s' sep
      else match Split s' sep with
           | [] => [String c EmptyString]
           | p :: ps => String c p :: ps
           end
  end.

(** [strings.Join(elems, sep)]. *)
Fixpoint Join (elems : list string) (sep : string) : string :=
  match elems with
  | [] => EmptyString
  | [e] => e
  | e :: rest => String.append e (String.append sep (Join rest sep))
  end.

End gostrings.

(** ** The part of [terraform.State] the checks read *)

Module terraform.

Record InstanceState := { Attributes : gmap string string }.

(** [Primary] is a pointer in Go; [None] is [nil]. *)
Record ResourceState := { Primary : option InstanceState }.

Record ModuleState := {
  Path : list string;
  Resources : gmap string ResourceState
}.

(** [s.RootModule()] is the only access made to the state; a state
    always has its root module. *)
Record State := { RootModule : ModuleState }.

End terraform.

(** ** Outcomes *)

(** What an element was searched by, as printed in the last error. *)
Inductive expectation :=
| WithValue (value : string)
| WithNestedAttrs (values : gmap string string).

(** The errors built with [fmt.Errorf], one constructor per format string,
    carrying the values the format prints. *)
Inductive error :=
| ResourceNotFound (res : string) (path : list string)
| InstanceNotFound (res : string) (path : list string)
| InvalidPattern (attr : string) (sentinel : string)
| EmptyCriteria (values : gmap string string)
| ElementNotFound (res attr : string) (wanted : expectation)
                  (attributes : gmap string string).

(** [Success] is the [nil] error, [Failure] a returned error, [Panic] the
    run-time panic of an index out of range. *)
Inductive outcome :=
| Success
| Failure (e : error)
| Panic.

(** The result of the loop over the attributes: it returned [nil] from
    inside, it ran to its end, or it panicked. *)
Inductive scan :=
| Found
| NotFound
| Panicked.

(** The order in which the two [range] statements deliver the entries of
    the map they are given. *)
Record Runtime := {
  range_values : gmap string string → list (string * string);
  range_attributes : gmap string string → list (string * string)
}.

(** Every entry is delivered once. *)
Definition fair_values (rt : Runtime) : Prop :=
  ∀ m, range_values rt m ≡ₚ map_to_list m.

Definition fair_attributes (rt : Runtime) : Prop :=
  ∀ m, range_attributes rt m ≡ₚ map_to_list m.

Definition fair (rt : Runtime) : Prop := fair_values rt ∧ fair_attributes rt.

(** Go's iteration in the order of [map_to_list], and in the opposite
    order. *)
Definition forwards : Runtime :=
  {| range_values := map_to_list; range_attributes := map_to_list |}.

Definition backwards : Runtime :=
  {| range_values := map_to_list;
     range_attributes := λ m, reverse (map_to_list m) |}.

Definition TestCheckFunc := Runtime → terraform.State → outcome.

(** ** The checks *)

Definition sentinelIndex : string := "*".

(** [attrParts[i] != stateKeyParts[i] && attrParts[i] != sentinelIndex],
    once [stateKeyParts[i]] has been read. *)
Definition differs (attrPart stateKeyPart : string) : bool :=
  negb (String.eqb attrPart stateKeyPart) &&
  negb (String.eqb attrPart sentinelIndex).

(** The counting loop over [values] (lines 55-60). *)
Fixpoint countNonEmpty (vs : list (string * string)) (matchCount : nat) : nat :=
  match vs with
  | [] => matchCount
  | (_, v) :: vs' =>
      countNonEmpty vs' (if String.eqb v "" then matchCount else S matchCount)
  end.

(** The loop [for i := range attrParts] of the nested check (lines 73-80).
    [rest] holds [attrParts[i:]] and [pathMatch] the flag so far.  [None]
    is the panic of [stateKeyParts[i]] out of range, which Go evaluates
    first in the condition. *)
Fixpoint pathMatchLoop (n : nat) (stateKeyParts rest : list string) (i : nat)
    (pathMatch : bool) : option bool :=
  match rest with
  | [] => Some pathMatch
  | a :: rest' =>
      match stateKeyParts !! i with
      | None => None
      | Some k =>
          if differs a k then Some pathMatch
          else pathMatchLoop n stateKeyParts rest' (S i)
                 (if i =? n - 1 then true else pathMatch)
      end
  end.

(** The loop over [is.Attributes] of the nested check (lines 64-92), on the
    entries in the order the range delivers them; [matches] is the map of
    counters.  The counters are Go [int]s that grow by one per entry, so
    they stay far from the width of the type and are natural numbers
    here. *)
Fixpoint nestedAttrsScan (attrParts : list string) (values : gmap string string)
    (matchCount : nat) (entries : list (string * string))
    (matches : gmap string nat) : scan :=
  match entries with
  | [] => NotFound
  | (stateKey, stateValue) :: entries' =>
      let stateKeyParts := gostrings.Split stateKey "." in
      if length stateKeyParts <? 3
      then nestedAttrsScan attrParts values matchCount entries' matches
      else
        match pathMatchLoop (length attrParts) stateKeyParts attrParts 0 false with
        | None => Panicked
        | Some false => nestedAttrsScan attrParts values matchCount entries' matches
        | Some true =>
            match stateKeyParts !! (length attrParts - 1) with
            | None => Panicked
            | Some id =>
                if length stateKeyParts <? length attrParts then Panicked
                else
                  let nestedAttr :=
                    gostrings.Join (drop (length attrParts) stateKeyParts) "." in
                  match values !! nestedAttr with
                  | Some v =>
                      if String.eqb v stateValue then
                        let matches' :=
                          <[id := default 0 (matches !! id) + 1]> matches in
                        if default 0 (matches' !! id) =? matchCount then Found
                        else nestedAttrsScan attrParts values matchCount
                               entries' matches'
                      else nestedAttrsScan attrParts values matchCount
                             entries' matches
                  | None =>
                      nestedAttrsScan attrParts values matchCount entries' matches
                  end
            end
        end
  end.

Definition TestCheckTypeSetElemNestedAttrs (res attr : string)
    (values : gmap string string) : TestCheckFunc :=
  λ rt s,
    let ms := terraform.RootModule s in
    match terraform.Resources ms !! res with
    | None => Failure (ResourceNotFound res (terraform.Path ms))
    | Some rs =>
        match terraform.Primary rs with
        | None => Failure (InstanceNotFound res (terraform.Path ms))
        | Some is_ =>
            let attrParts := gostrings.Split attr "." in
            match attrParts !! (length attrParts - 1) with
            | None => Panic
            | Some last =>
                if negb (String.eqb last sentinelIndex)
                then Failure (InvalidPattern attr sentinelIndex)
                else
                  let matchCount := countNonEmpty (range_values rt values) 0 in
                  if matchCount =? 0 then Failure (EmptyCriteria values)
                  else
                    match nestedAttrsScan attrParts values matchCount
                            (range_attributes rt (terraform.Attributes is_)) ∅ with
                    | Found => Success
                    | Panicked => Panic
                    | NotFound =>
                        Failure (ElementNotFound res attr (WithNestedAttrs values)
                                   (terraform.Attributes is_))
                    end
            end
        end
    end.

(** The loop [for i := range attrParts] of the scalar check (lines 126-133):
    [Some true] when it returns [nil], [Some false] when it is left by
    [break] or at its end, [None] for the panic of an index out of range. *)
Fixpoint elemAttrLoop (n : nat) (stateKeyParts rest : list string) (i : nat)
    : option bool :=
  match rest with
  | [] => Some false
  | a :: rest' =>
      match stateKeyParts !! i with
      | None => None
      | Some k =>
          if differs a k then Some false
          else if i =? n - 1 then Some true
          else elemAttrLoop n stateKeyParts rest' (S i)
      end
  end.

(** The loop over [is.Attributes] of the scalar check (lines 122-136). *)
Fixpoint elemAttrScan (attrParts : list string) (value : string)
    (entries : list (string * string)) : scan :=
  match entries with
  | [] => NotFound
  | (stateKey, stateValue) :: entries' =>
      if String.eqb stateValue value then
        let stateKeyParts := gostrings.Split stateKey "." in
        if length stateKeyParts =? length attrParts then
          match elemAttrLoop (length attrParts) stateKeyParts attrParts 0 with
          | None => Panicked
          | Some true => Found
          | Some false => elemAttrScan attrParts value entries'
          end
        else elemAttrScan attrParts value entries'
      else elemAttrScan attrParts value entries'
  end.

Definition TestCheckTypeSetElemAttr (res attr value : string) : TestCheckFunc :=
  λ rt s,
    let ms := terraform.RootModule s in
    match terraform.Resources ms !! res with
    | None => Failure (ResourceNotFound res (terraform.Path ms))
    | Some rs =>
        match terraform.Primary rs with
        | None => Failure (InstanceNotFound res (terraform.Path ms))
        | Some is_ =>
            let attrParts := gostrings.Split attr "." in
            match attrParts !! (length attrParts - 1) with
            | None => Panic
            | Some last =>
                if negb (String.eqb last sentinelIndex)
                then Failure (InvalidPattern attr sentinelIndex)
                else
                  match elemAttrScan attrParts value
                          (range_attributes rt (terraform.Attributes is_)) with
                  | Found => Success
                  | Panicked => Panic
                  | NotFound =>
                      Failure (ElementNotFound res attr (WithValue value)
                                 (terraform.Attributes is_))
                  end
            end
        end
    end.

(** A state whose root module holds one resource [res] with the primary
    attributes [attrs]. *)
Definition stateOf (res : string) (attrs : gmap string string) : terraform.State :=
  {| terraform.RootModule :=
       {| terraform.Path := ["root"];
          terraform.Resources :=
            {[ res := {| terraform.Primary :=
                           Some {| terraform.Attributes := attrs |} |} ]} |} |}.

(** ** What the claims speak of *)

(** A segment of the pattern agrees with a segment of a key when it is
    that segment or the sentinel. *)
Definition agrees (attrPart stateKeyPart : string) : Prop :=
  attrPart = stateKeyPart ∨ attrPart = sentinelIndex.

#[global] Instance agrees_dec : RelDecision agrees.
Proof. intros a k. unfold agrees. apply _. Defined.

(** The pattern ends in the sentinel. *)
Definition endsInSentinel (attr : string) : Prop :=
  last (gostrings.Split attr ".") = Some sentinelIndex.

#[global] Instance endsInSentinel_dec attr : Decision (endsInSentinel attr).
Proof. unfold endsInSentinel. apply _. Defined.

(** The key has the pattern's segments position for position and [id] at
    the position of the pattern's last segment. *)
Definition matchesWithId (attrParts : list string) (id : string)
    (stateKeyParts : list string) : Prop :=
  Forall2 agrees attrParts (take (length attrParts) stateKeyParts) ∧
  stateKeyParts !! (length attrParts - 1) = Some id.

(** The entry counts for [id] as the claim on the nested check words it:
    its key matches the pattern with that id, and what follows the id is a
    key of [values] whose value is the entry's. *)
Definition satisfiesAsClaimed (attrParts : list string)
    (values : gmap string string) (id : string) (entry : string * string) : Prop :=
  let stateKeyParts := gostrings.Split entry.1 "." in
  matchesWithId attrParts id stateKeyParts ∧
  values !! gostrings.Join (drop (length attrParts) stateKeyParts) "."
    = Some entry.2.

(** The same, for keys of three segments or more only. *)
Definition satisfies (attrParts : list string) (values : gmap string string)
    (id : string) (entry : string * string) : Prop :=
  3 ≤ length (gostrings.Split entry.1 ".") ∧
  satisfiesAsClaimed attrParts values id entry.

#[global] Instance satisfiesAsClaimed_dec attrParts values id entry :
  Decision (satisfiesAsClaimed attrParts values id entry).
Proof. unfold satisfiesAsClaimed, matchesWithId. apply _. Defined.

#[global] Instance satisfies_dec attrParts values id entry :
  Decision (satisfies attrParts values id entry).
Proof. unfold satisfies. apply _. Defined.

(** How many entries count for [id]. *)
Definition satisfiedCount (attrParts : list string) (values : gmap string string)
    (id : string) (entries : list (string * string)) : nat :=
  length (filter (satisfies attrParts values id) entries).

Definition claimedCount (attrParts : list string) (values : gmap string string)
    (id : string) (entries : list (string * string)) : nat :=
  length (filter (satisfiesAsClaimed attrParts values id) entries).

(** The number of criteria with a non-empty expected value. *)
Definition nonEmptyCount (values : gmap string string) : nat :=
  length (filter (λ kv : string * string, kv.2 ≠ "") (map_to_list values)).

(** A key of three segments or more that is shorter than the pattern and
    agrees with it on every segment it has. *)
Definition overruns (attrParts : list string) (stateKey : string) : Prop :=
  let stateKeyParts := gostrings.Split stateKey "." in
  3 ≤ length stateKeyParts ∧
  length stateKeyParts < length attrParts ∧
  Forall2 agrees (take (length stateKeyParts) attrParts) stateKeyParts.

#[global] Instance overruns_dec attrParts stateKey :
  Decision (overruns attrParts stateKey).
Proof. unfold overruns. apply _. Defined.

(** The key and value a scalar check looks for. *)
Definition scalarHit (attrParts : list string) (value : string)
    (entry : string * string) : Prop :=
  let stateKeyParts := gostrings.Split entry.1 "." in
  length stateKeyParts = length attrParts ∧
  entry.2 = value ∧
  Forall2 agrees attrParts stateKeyParts.

(** A runtime that does not even deliver the attributes whose key has
    fewer than [bound] segments. *)
Definition skipKeysBelow (bound : nat) (rt : Runtime) : Runtime :=
  {| range_values := range_values rt;
     range_attributes := λ m,
       filter (λ kv : string * string,
                 bound ≤ length (gostrings.Split kv.1 "."))
              (range_attributes rt m) |}.

(** The walk of the pattern along a key that both loops over [attrParts]
    make: [Some true] at the end of the pattern, [Some false] at the first
    segment that differs, [None] when the key ends first. *)
Fixpoint prefixAgrees (attrParts stateKeyParts : list string) : option bool :=
  match attrParts with
  | [] => Some true
  | a :: attrParts' =>
      match stateKeyParts with
      | [] => None
      | k :: stateKeyParts' =>
          if differs a k then Some false
          else prefixAgrees attrParts' stateKeyParts'
      end
  end.

(** [matches[id]], zero for an id without a counter. *)
Definition counter (matches : gmap string nat) (id : string) : nat :=
  default 0 (matches !! id).

(** ** Sample inputs *)

(** [{"set.0.name":"a","set.0.port":"80","set.1.name":"b"}] and the
    criteria [{"name":"a","port":"80"}]. *)
Definition twoElements : gmap string string :=
  <["set.0.name" := "a"]> (<["set.0.port" := "80"]> {["set.1.name" := "b"]}).

Definition nameAndPort : gmap string string :=
  <["name" := "a"]> {["port" := "80"]}.

(** [{"set.0.name":"a","set.1.port":"80"}]: the name on one element, the
    port on another. *)
Definition splitOverIds : gmap string string :=
  <["set.0.name" := "a"]> {["set.1.port" := "80"]}.

(** [{"set.0.name":"b","set.0.port":""}] and the criteria
    [{"name":"a","port":""}]: the only element has another name. *)
Definition emptyPort : gmap string string :=
  <["set.0.name" := "b"]> {["set.0.port" := ""]}.

Definition nameAndNoPort : gmap string string :=
  <["name" := "a"]> {["port" := ""]}.

(** [{"a.b.c":"x"}], a key of three segments under the pattern
    ["a.b.c.*"] of four, and [{"a.b.c.0.d":"x","a.b.c":"y"}], which has an
    element with [d = "x"] next to it. *)
Definition shortKey : gmap string string := {["a.b.c" := "x"]}.

Definition shortKeyAndElement : gmap string string :=
  <["a.b.c.0.d" := "x"]> {["a.b.c" := "y"]}.

Definition onlyD : gmap string string := {["d" := "x"]}.

(** [{"a.b":"x"}] under the pattern ["*"] with the criteria [{"b":"x"}]. *)
Definition twoSegments : gmap string string := {["a.b" := "x"]}.

Definition onlyB : gmap string string := {["b" := "x"]}.

(** [{"set.0.name":"a"}] with the criteria [{"name":"a"}], and
    [{"set.0":"x"}]. *)
Definition oneName : gmap string string := {["set.0.name" := "a"]}.

Definition onlyName : gmap string string := {["name" := "a"]}.

Definition scalarSet : gmap string string := {["set.0" := "x"]}.

(** The criteria [{"port":""}]. *)
Definition onlyNoPort : gmap string string := {["port" := ""]}.

(** A state without resources, and one whose resource [res] has no primary
    instance. *)
Definition noResources : terraform.State :=
  {| terraform.RootModule :=
       {| terraform.Path := ["root"]; terraform.Resources := ∅ |} |}.

Definition noPrimary (res : string) : terraform.State :=
  {| terraform.RootModule :=
       {| terraform.Path := ["root"];
          terraform.Resources := {[ res := {| terraform.Primary := None |} ]} |} |}.

(** ** What one entry does to the nested scan *)

(** The three things an entry can do: make the scan panic, leave the
    counters as they are, or add one to the counter of an id. *)
Inductive effect :=
| Overrun
| Skip
| Count (id : string).

Definition entryEffect (attrParts : list string) (values : gmap string string)
    (entry : string * string) : effect :=
  if decide (overruns attrParts entry.1) then Overrun
  else
    match gostrings.Split entry.1 "." !! (length attrParts - 1) with
    | Some id =>
        if decide (satisfies attrParts values id entry) then Count id else Skip
    | None => Skip
    end.

(** A runtime that delivers only the attributes [keep] holds of. *)
Definition deliverOnly (keep : string * string → Prop)
    `{∀ kv, Decision (keep kv)} (rt : Runtime) : Runtime :=
  {| range_values := range_values rt;
     range_attributes := λ m, filter keep (range_attributes rt m) |}.

(** The entries the scalar check can stop at: the value looked for under a
    key with as many segments as the pattern. *)
Definition scalarCandidate (attr value : string) (kv : string * string) : Prop :=
  kv.2 = value ∧
  length (gostrings.Split kv.1 ".") = length (gostrings.Split attr ".").

#[global] Instance scalarCandidate_dec attr value kv :
  Decision (scalarCandidate attr value kv).
Proof. unfold scalarCandidate. apply _. Defined.

(** The text of [s] after its [n]-th dot, read off the bytes of [s]:
    [None] when [s] has fewer than [n] dots. *)
Fixpoint afterDots (n : nat) (s : string) {struct s} : option string :=
  match n with
  | 0 => Some s
  | S n' =>
      match s with
      | EmptyString => None
      | String c s' =>
          if Ascii.eqb c "." then afterDots n' s' else afterDots n s'
      end
  end.

(** [{"rule.0.port":"80"}] under the pattern ["rule.*"], and the same map
    with one more attribute. *)
Definition onePort : gmap string string := {["rule.0" := "80"]}.

Definition onePortAndId : gmap string string :=
  <["id" := "sg-1"]> {["rule.0" := "80"]}.

(** * Proofs *)

(** ** Splitting *)

Lemma Split_nonempty s sep : gostrings.Split s sep ≠ [].
Proof.
  destruct s as [|c s]; simpl; [done|].
  destruct (Ascii.eqb c sep); [done|].
  destruct (gostrings.Split s sep); done.
Qed.

Lemma Split_length s sep : 1 ≤ length (gostrings.Split s sep).
Proof.
  pose proof (Split_nonempty s sep) as H.
  destruct (gostrings.Split s sep); [done|simpl; lia].
Qed.

Lemma lookup_last_index {A} (l : list A) : l !! (length l - 1) = last l.
Proof.
  induction l as [|x [|y l] IH]; [done|done|].
  change (last (x :: y :: l)) with (last (y :: l)). rewrite <- IH.
  simpl. by rewrite Nat.sub_0_r.
Qed.

(** ** One segment, and the walk along a key *)

Lemma differs_false a k : differs a k = false ↔ agrees a k.
Proof.
  unfold differs, agrees.
  destruct (String.eqb_spec a k), (String.eqb_spec a sentinelIndex);
    simpl; intuition congruence.
Qed.

Lemma differs_true a k : differs a k = true ↔ ¬ agrees a k.
Proof.
  rewrite <- differs_false. destruct (differs a k); intuition congruence.
Qed.

Lemma pathMatchLoop_prefixAgrees n parts rest i :
  rest ≠ [] → i + length rest = n →
  pathMatchLoop n parts rest i false = prefixAgrees rest (drop i parts).
Proof.
  revert i. induction rest as [|a rest IH]; intros i Hne Hlen; [done|].
  simpl in *. destruct (parts !! i) as [k|] eqn:Hk.
  - rewrite (drop_S _ _ _ Hk). destruct (differs a k); [done|].
    destruct rest as [|b rest].
    + simpl in *. replace (i =? n - 1) with true; [done|].
      symmetry. apply Nat.eqb_eq. lia.
    + replace (i =? n - 1) with false.
      * apply IH; [done|simpl in *; lia].
      * symmetry. apply Nat.eqb_neq. simpl in *. lia.
  - apply lookup_ge_None in Hk. by rewrite drop_ge.
Qed.

Lemma elemAttrLoop_prefixAgrees n parts rest i :
  rest ≠ [] → i + length rest = n →
  elemAttrLoop n parts rest i = prefixAgrees rest (drop i parts).
Proof.
  revert i. induction rest as [|a rest IH]; intros i Hne Hlen; [done|].
  simpl in *. destruct (parts !! i) as [k|] eqn:Hk.
  - rewrite (drop_S _ _ _ Hk). destruct (differs a k); [done|].
    destruct rest as [|b rest].
    + simpl in *. replace (i =? n - 1) with true; [done|].
      symmetry. apply Nat.eqb_eq. lia.
    + replace (i =? n - 1) with false.
      * apply IH; [done|simpl in *; lia].
      * symmetry. apply Nat.eqb_neq. simpl in *. lia.
  - apply lookup_ge_None in Hk. by rewrite drop_ge.
Qed.

Lemma prefixAgrees_true attrParts parts :
  prefixAgrees attrParts parts = Some true ↔
  Forall2 agrees attrParts (take (length attrParts) parts).
Proof.
  revert parts. induction attrParts as [|a attrParts IH]; intros parts; simpl.
  - split; [constructor|done].
  - destruct parts as [|k parts]; simpl.
    + split; [done|]. intros H. inversion H.
    + destruct (differs a k) eqn:Hd.
      * apply differs_true in Hd. split; [done|].
        intros H. inversion H; subst. done.
      * apply differs_false in Hd. rewrite IH. split.
        -- by constructor.
        -- intros H. by inversion H; subst.
Qed.

Lemma prefixAgrees_None attrParts parts :
  prefixAgrees attrParts parts = None ↔
  length parts < length attrParts ∧
  Forall2 agrees (take (length parts) attrParts) parts.
Proof.
  revert parts. induction attrParts as [|a attrParts IH]; intros parts; simpl.
  - split; [done|]. intros [? _]. lia.
  - destruct parts as [|k parts]; simpl.
    + split; [|done]. intros _. split; [lia|constructor].
    + destruct (differs a k) eqn:Hd.
      * apply differs_true in Hd. split; [done|].
        intros [_ H]. inversion H; subst. done.
      * apply differs_false in Hd. rewrite IH. split.
        -- intros [? ?]. split; [lia|by constructor].
        -- intros [? H]. split; [lia|]. by inversion H; subst.
Qed.

(** ** The counters *)

Lemma counter_insert (matches : gmap string nat) id c id' :
  counter (<[id := c]> matches) id' =
  if decide (id' = id) then c else counter matches id'.
Proof.
  unfold counter. destruct (decide (id' = id)) as [->|Hne].
  - by rewrite lookup_insert_eq.
  - by rewrite lookup_insert_ne.
Qed.

Lemma counter_insert_self (matches : gmap string nat) id c :
  default 0 (<[id := c]> matches !! id) = c.
Proof. by rewrite lookup_insert_eq. Qed.

Lemma counter_empty id : counter ∅ id = 0.
Proof. unfold counter. by rewrite lookup_empty. Qed.

Lemma satisfiedCount_cons attrParts values id e entries :
  satisfiedCount attrParts values id (e :: entries) =
  (if decide (satisfies attrParts values id e) then 1 else 0) +
  satisfiedCount attrParts values id entries.
Proof.
  unfold satisfiedCount. rewrite filter_cons.
  destruct (decide (satisfies attrParts values id e)); done.
Qed.

Lemma satisfiedCount_skip attrParts values e entries :
  (∀ id, ¬ satisfies attrParts values id e) →
  ∀ id, satisfiedCount attrParts values id (e :: entries) =
        satisfiedCount attrParts values id entries.
Proof.
  intros Hno id. rewrite satisfiedCount_cons.
  destruct (decide (satisfies attrParts values id e)) as [H|_]; [|done].
  by apply Hno in H.
Qed.

Lemma satisfiedCount_Permutation attrParts values id l1 l2 :
  l1 ≡ₚ l2 →
  satisfiedCount attrParts values id l1 = satisfiedCount attrParts values id l2.
Proof. intros H. unfold satisfiedCount. by rewrite H. Qed.

(** ** One entry of the nested scan *)

Section NestedEntry.
Variables (attrParts : list string) (values : gmap string string).
Variables (stateKey stateValue : string).
Hypothesis attrParts_nonempty : attrParts ≠ [].

Let stateKeyParts := gostrings.Split stateKey ".".

Lemma short_key_not_satisfied id :
  length stateKeyParts < 3 →
  ¬ satisfies attrParts values id (stateKey, stateValue).
Proof. intros Hlt [Hge _]. simpl in Hge. fold stateKeyParts in Hge. lia. Qed.

Lemma path_mismatch_not_satisfied id :
  pathMatchLoop (length attrParts) stateKeyParts attrParts 0 false = Some false →
  ¬ satisfies attrParts values id (stateKey, stateValue).
Proof.
  rewrite pathMatchLoop_prefixAgrees by done. rewrite drop_0.
  intros Hp (_ & [Hall _] & _). simpl in Hall. fold stateKeyParts in Hall.
  apply prefixAgrees_true in Hall. congruence.
Qed.

Lemma path_panic_overruns :
  3 ≤ length stateKeyParts →
  pathMatchLoop (length attrParts) stateKeyParts attrParts 0 false = None →
  overruns attrParts stateKey.
Proof.
  rewrite pathMatchLoop_prefixAgrees by done. rewrite drop_0.
  intros Hge Hp. apply prefixAgrees_None in Hp. by split.
Qed.

Lemma overruns_path_panic :
  overruns attrParts stateKey →
  pathMatchLoop (length attrParts) stateKeyParts attrParts 0 false = None.
Proof.
  intros (_ & Hlt & Hall).
  rewrite pathMatchLoop_prefixAgrees by done. rewrite drop_0.
  by apply prefixAgrees_None.
Qed.

Lemma path_match_in_range :
  pathMatchLoop (length attrParts) stateKeyParts attrParts 0 false = Some true →
  Forall2 agrees attrParts (take (length attrParts) stateKeyParts) ∧
  length attrParts ≤ length stateKeyParts.
Proof.
  rewrite pathMatchLoop_prefixAgrees by done. rewrite drop_0.
  intros Hp. apply prefixAgrees_true in Hp. split; [done|].
  apply Forall2_length in Hp. rewrite length_take in Hp. lia.
Qed.

Lemma path_match_satisfies id0 id :
  3 ≤ length stateKeyParts →
  pathMatchLoop (length attrParts) stateKeyParts attrParts 0 false = Some true →
  stateKeyParts !! (length attrParts - 1) = Some id0 →
  satisfies attrParts values id (stateKey, stateValue) ↔
  id = id0 ∧
  values !! gostrings.Join (drop (length attrParts) stateKeyParts) "."
    = Some stateValue.
Proof.
  intros Hge Hp Hid. apply path_match_in_range in Hp as [Hall _].
  unfold satisfies, satisfiesAsClaimed, matchesWithId. simpl.
  fold stateKeyParts. rewrite Hid. intuition congruence.
Qed.
End NestedEntry.

(** ** The nested scan *)

Lemma nestedAttrsScan_spec attrParts values matchCount entries :
  attrParts ≠ [] →
  ∀ matches, (∀ id, counter matches id < matchCount) →
  match nestedAttrsScan attrParts values matchCount entries matches with
  | Found =>
      ∃ id, matchCount ≤
              counter matches id + satisfiedCount attrParts values id entries
  | NotFound =>
      ∀ id, counter matches id + satisfiedCount attrParts values id entries
              < matchCount
  | Panicked => ∃ e, e ∈ entries ∧ overruns attrParts e.1
  end.
Proof.
  intros Hne. induction entries as [|[k v] entries IH]; intros matches Hlt.
  { simpl. intros id. unfold satisfiedCount. simpl. specialize (Hlt id). lia. }
  assert (Hskip : (∀ id, ¬ satisfies attrParts values id (k, v)) →
    match nestedAttrsScan attrParts values matchCount entries matches with
    | Found =>
        ∃ id, matchCount ≤ counter matches id +
                satisfiedCount attrParts values id ((k, v) :: entries)
    | NotFound =>
        ∀ id, counter matches id +
                satisfiedCount attrParts values id ((k, v) :: entries)
                < matchCount
    | Panicked => ∃ e, e ∈ (k, v) :: entries ∧ overruns attrParts e.1
    end).
  { intros Hno. specialize (IH matches Hlt).
    destruct (nestedAttrsScan attrParts values matchCount entries matches).
    - destruct IH as [id H]. exists id. by rewrite satisfiedCount_skip.
    - intros id. rewrite satisfiedCount_skip by done. apply IH.
    - destruct IH as (e & He & Ho). exists e. split; [by right|done]. }
  simpl nestedAttrsScan.
  destruct (Nat.ltb_spec (length (gostrings.Split k ".")) 3) as [Hshort|Hlong].
  { apply Hskip. intros id. by apply short_key_not_satisfied. }
  destruct (pathMatchLoop (length attrParts) (gostrings.Split k ".") attrParts
              0 false) as [[|]|] eqn:Hpath.
  - destruct (path_match_in_range _ _ Hne Hpath) as [_ Hlen].
    destruct (gostrings.Split k "." !! (length attrParts - 1)) as [id0|] eqn:Hid.
    2:{ apply lookup_ge_None in Hid. destruct attrParts; [done|simpl in *; lia]. }
    destruct (Nat.ltb_spec (length (gostrings.Split k ".")) (length attrParts));
      [lia|].
    pose proof (λ id, path_match_satisfies attrParts values k v Hne id0 id
                        Hlong Hpath Hid) as Hsat.
    destruct (values !! gostrings.Join
                (drop (length attrParts) (gostrings.Split k ".")) ".")
      as [v'|] eqn:Hv.
    2:{ apply Hskip. intros id. rewrite Hsat. intros [_ ?]. done. }
    destruct (String.eqb_spec v' v) as [->|Hvne].
    2:{ apply Hskip. intros id. rewrite Hsat. intros [_ ?]. congruence. }
    rewrite counter_insert_self.
    change (default 0 (matches !! id0)) with (counter matches id0).
    assert (Hcons : ∀ id,
      satisfiedCount attrParts values id ((k, v) :: entries) =
      (if decide (id = id0) then 1 else 0) +
      satisfiedCount attrParts values id entries).
    { intros id. rewrite satisfiedCount_cons.
      destruct (decide (satisfies _ _ _ _)) as [Hs|Hs];
        destruct (decide (id = id0)) as [He|He]; try done.
      - apply Hsat in Hs. by destruct Hs.
      - exfalso. apply Hs, Hsat. done. }
    destruct (Nat.eqb_spec (counter matches id0 + 1) matchCount) as [Heq|Hneq].
    + exists id0. rewrite Hcons. rewrite decide_True by done. lia.
    + assert (Hlt' : ∀ id,
        counter (<[id0 := counter matches id0 + 1]> matches) id < matchCount).
      { intros id. rewrite counter_insert. specialize (Hlt id).
        destruct (decide (id = id0)) as [->|]; lia. }
      specialize (IH _ Hlt').
      destruct (nestedAttrsScan attrParts values matchCount entries _).
      * destruct IH as [id Hfound]. exists id. rewrite Hcons.
        rewrite counter_insert in Hfound.
        destruct (decide (id = id0)) as [->|]; lia.
      * intros id. specialize (IH id). rewrite Hcons.
        rewrite counter_insert in IH. destruct (decide (id = id0)) as [->|]; lia.
      * destruct IH as (e & He & Ho). exists e. split; [by right|done].
  - apply Hskip. intros id. by apply path_mismatch_not_satisfied.
  - exists (k, v). split; [by left|]. by apply path_panic_overruns.
Qed.

Lemma nestedAttrsScan_skip_short attrParts values matchCount entries matches :
  nestedAttrsScan attrParts values matchCount entries matches =
  nestedAttrsScan attrParts values matchCount
    (filter (λ kv : string * string, 3 ≤ length (gostrings.Split kv.1 "."))
            entries)
    matches.
Proof.
  revert matches. induction entries as [|[k v] entries IH]; intros matches.
  { done. }
  rewrite filter_cons. simpl decide.
  destruct (decide (3 ≤ length (gostrings.Split k "."))) as [Hlong|Hshort].
  - simpl. destruct (Nat.ltb_spec (length (gostrings.Split k ".")) 3); [lia|].
    repeat match goal with
           | |- context [match ?x with _ => _ end] =>
               match x with
               | nestedAttrsScan _ _ _ _ _ => fail 1
               | _ => destruct x eqn:?
               end
           end; try done; apply IH.
  - simpl. destruct (Nat.ltb_spec (length (gostrings.Split k ".")) 3); [|lia].
    apply IH.
Qed.

(** ** Counting the criteria *)

Lemma filter_length_pos {A} (P : A → Prop) `{∀ x, Decision (P x)} (l : list A) :
  0 < length (filter P l) ↔ ∃ x, x ∈ l ∧ P x.
Proof.
  split.
  - intros Hpos. destruct (filter P l) as [|x l'] eqn:Hf; [simpl in Hpos; lia|].
    assert (Hx : x ∈ filter P l) by (rewrite Hf; by left).
    apply list_elem_of_filter in Hx as [? ?]. by exists x.
  - intros (x & Hx & HP).
    assert (Hin : x ∈ filter P l) by (by apply list_elem_of_filter).
    destruct (filter P l); [by apply elem_of_nil in Hin|simpl; lia].
Qed.

Lemma countNonEmpty_filter vs matchCount :
  countNonEmpty vs matchCount =
  matchCount + length (filter (λ kv : string * string, kv.2 ≠ "") vs).
Proof.
  revert matchCount. induction vs as [|[k v] vs IH]; intros matchCount; simpl.
  { lia. }
  rewrite IH, filter_cons. simpl.
  destruct (String.eqb_spec v ""), (decide (v ≠ "")); simpl; try done; lia.
Qed.

Lemma countNonEmpty_fair rt values :
  fair_values rt →
  countNonEmpty (range_values rt values) 0 = nonEmptyCount values.
Proof.
  intros Hfair. rewrite countNonEmpty_filter. unfold nonEmptyCount.
  by rewrite (Hfair values).
Qed.

Lemma nonEmptyCount_pos (values : gmap string string) :
  0 < nonEmptyCount values ↔ ∃ k v, values !! k = Some v ∧ v ≠ "".
Proof.
  unfold nonEmptyCount. rewrite filter_length_pos. split.
  - intros ([k v] & Hin & Hv). apply elem_of_map_to_list in Hin. by exists k, v.
  - intros (k & v & Hin & Hv). exists (k, v).
    split; [by apply elem_of_map_to_list|done].
Qed.

Lemma nonEmptyCount_zero (values : gmap string string) :
  nonEmptyCount values = 0 ↔ ∀ k v, values !! k = Some v → v = "".
Proof.
  pose proof (nonEmptyCount_pos values) as Hpos. split.
  - intros Hz k v Hk. destruct (decide (v = "")) as [|Hv]; [done|].
    assert (0 < nonEmptyCount values) by (apply Hpos; by exists k, v). lia.
  - intros Hall. destruct (nonEmptyCount values) as [|n] eqn:Hn; [done|].
    destruct (proj1 Hpos) as (k & v & Hk & Hv); [lia|].
    by apply Hall in Hk.
Qed.

(** ** The checks below the look-up of the resource *)

Section Instance.
Variables (rt : Runtime) (s : terraform.State) (res : string).
Variables (rs : terraform.ResourceState) (is_ : terraform.InstanceState).
Hypothesis resource_found :
  terraform.Resources (terraform.RootModule s) !! res = Some rs.
Hypothesis primary_found : terraform.Primary rs = Some is_.

Lemma nested_invalid attr values :
  ¬ endsInSentinel attr →
  TestCheckTypeSetElemNestedAttrs res attr values rt s =
  Failure (InvalidPattern attr sentinelIndex).
Proof.
  intros Hend. unfold TestCheckTypeSetElemNestedAttrs, endsInSentinel in *.
  simpl. rewrite resource_found, primary_found, lookup_last_index.
  destruct (last (gostrings.Split attr ".")) as [l|] eqn:Hl.
  - destruct (String.eqb_spec l sentinelIndex) as [->|]; done.
  - apply last_None in Hl. by apply Split_nonempty in Hl.
Qed.

Lemma scalar_invalid attr value :
  ¬ endsInSentinel attr →
  TestCheckTypeSetElemAttr res attr value rt s =
  Failure (InvalidPattern attr sentinelIndex).
Proof.
  intros Hend. unfold TestCheckTypeSetElemAttr, endsInSentinel in *.
  simpl. rewrite resource_found, primary_found, lookup_last_index.
  destruct (last (gostrings.Split attr ".")) as [l|] eqn:Hl.
  - destruct (String.eqb_spec l sentinelIndex) as [->|]; done.
  - apply last_None in Hl. by apply Split_nonempty in Hl.
Qed.

Lemma nested_valid attr values :
  endsInSentinel attr →
  TestCheckTypeSetElemNestedAttrs res attr values rt s =
  let matchCount := countNonEmpty (range_values rt values) 0 in
  if matchCount =? 0 then Failure (EmptyCriteria values)
  else
    match nestedAttrsScan (gostrings.Split attr ".") values matchCount
            (range_attributes rt (terraform.Attributes is_)) ∅ with
    | Found => Success
    | Panicked => Panic
    | NotFound =>
        Failure (ElementNotFound res attr (WithNestedAttrs values)
                   (terraform.Attributes is_))
    end.
Proof.
  intros Hend. unfold TestCheckTypeSetElemNestedAttrs, endsInSentinel in *.
  simpl. rewrite resource_found, primary_found, lookup_last_index, Hend.
  done.
Qed.

Lemma scalar_valid attr value :
  endsInSentinel attr →
  TestCheckTypeSetElemAttr res attr value rt s =
  match elemAttrScan (gostrings.Split attr ".") value
          (range_attributes rt (terraform.Attributes is_)) with
  | Found => Success
  | Panicked => Panic
  | NotFound =>
      Failure (ElementNotFound res attr (WithValue value)
                 (terraform.Attributes is_))
  end.
Proof.
  intros Hend. unfold TestCheckTypeSetElemAttr, endsInSentinel in *.
  simpl. rewrite resource_found, primary_found, lookup_last_index, Hend.
  done.
Qed.
End Instance.

(** ** The scalar scan *)

Lemma elemAttrScan_spec attrParts value entries :
  attrParts ≠ [] →
  match elemAttrScan attrParts value entries with
  | Found => ∃ e, e ∈ entries ∧ scalarHit attrParts value e
  | NotFound => ∀ e, e ∈ entries → ¬ scalarHit attrParts value e
  | Panicked => False
  end.
Proof.
  intros Hne. induction entries as [|[k v] entries IH].
  { simpl. intros e He. by apply elem_of_nil in He. }
  assert (Hskip : ¬ scalarHit attrParts value (k, v) →
    match elemAttrScan attrParts value entries with
    | Found => ∃ e, e ∈ (k, v) :: entries ∧ scalarHit attrParts value e
    | NotFound => ∀ e, e ∈ (k, v) :: entries → ¬ scalarHit attrParts value e
    | Panicked => False
    end).
  { intros Hno. destruct (elemAttrScan attrParts value entries).
    - destruct IH as (e & He & Hhit). exists e. split; [by right|done].
    - intros e He. apply elem_of_cons in He as [->|He]; [done|by apply IH].
    - done. }
  simpl elemAttrScan.
  destruct (String.eqb_spec v value) as [->|Hv].
  2:{ apply Hskip. intros (_ & Hval & _). done. }
  destruct (Nat.eqb_spec (length (gostrings.Split k ".")) (length attrParts))
    as [Hlen|Hlen].
  2:{ apply Hskip. intros (Hl & _). done. }
  rewrite elemAttrLoop_prefixAgrees by done. rewrite drop_0.
  destruct (prefixAgrees attrParts (gostrings.Split k ".")) as [[|]|] eqn:Hp.
  - apply prefixAgrees_true in Hp. rewrite take_ge in Hp by lia.
    exists (k, value). split; [by left|done].
  - apply Hskip. intros (_ & _ & Hall). simpl in Hall.
    assert (prefixAgrees attrParts (gostrings.Split k ".") = Some true);
      [|congruence].
    apply prefixAgrees_true. by rewrite take_ge by lia.
  - apply prefixAgrees_None in Hp as [Hlt _]. lia.
Qed.

Lemma scalar_hit_Permutation attrParts value (l1 l2 : list (string * string)) :
  l1 ≡ₚ l2 →
  (∃ e, e ∈ l1 ∧ scalarHit attrParts value e) →
  ∃ e, e ∈ l2 ∧ scalarHit attrParts value e.
Proof. intros Hp (e & He & Hhit). exists e. by rewrite <- Hp. Qed.

Lemma elemAttrScan_Permutation attrParts value l1 l2 :
  attrParts ≠ [] → l1 ≡ₚ l2 →
  elemAttrScan attrParts value l1 = elemAttrScan attrParts value l2.
Proof.
  intros Hne Hp.
  pose proof (elemAttrScan_spec attrParts value l1 Hne) as H1.
  pose proof (elemAttrScan_spec attrParts value l2 Hne) as H2.
  destruct (elemAttrScan attrParts value l1),
           (elemAttrScan attrParts value l2); try done.
  - destruct H1 as (e & He & Hhit). rewrite Hp in He. by apply H2 in He.
  - destruct H2 as (e & He & Hhit). rewrite <- Hp in He. by apply H1 in He.
Qed.

(** ** The nested scan from the empty map of counters *)

Lemma nestedAttrsScan_from_empty attrParts values matchCount entries :
  attrParts ≠ [] → 0 < matchCount →
  match nestedAttrsScan attrParts values matchCount entries ∅ with
  | Found => ∃ id, matchCount ≤ satisfiedCount attrParts values id entries
  | NotFound => ∀ id, satisfiedCount attrParts values id entries < matchCount
  | Panicked => ∃ e, e ∈ entries ∧ overruns attrParts e.1
  end.
Proof.
  intros Hne Hpos.
  pose proof (nestedAttrsScan_spec attrParts values matchCount entries Hne ∅)
    as Hspec.
  destruct (nestedAttrsScan attrParts values matchCount entries ∅).
  - destruct Hspec as [id Hid]; [by intros id; rewrite counter_empty|].
    exists id. by rewrite counter_empty in Hid.
  - intros id. specialize (Hspec ltac:(by intros id'; rewrite counter_empty) id).
    by rewrite counter_empty in Hspec.
  - apply Hspec. intros id. by rewrite counter_empty.
Qed.

Lemma nestedAttrsScan_Permutation attrParts values matchCount l1 l2 :
  attrParts ≠ [] → 0 < matchCount → l1 ≡ₚ l2 →
  Forall (λ e : string * string, ¬ overruns attrParts e.1) l1 →
  nestedAttrsScan attrParts values matchCount l1 ∅ =
  nestedAttrsScan attrParts values matchCount l2 ∅.
Proof.
  intros Hne Hpos Hp Hsafe.
  pose proof (nestedAttrsScan_from_empty attrParts values matchCount l1 Hne Hpos)
    as H1.
  pose proof (nestedAttrsScan_from_empty attrParts values matchCount l2 Hne Hpos)
    as H2.
  assert (Hno : ∀ l, l ≡ₚ l1 →
            ¬ ∃ e : string * string, e ∈ l ∧ overruns attrParts e.1).
  { intros l Hl (e & He & Ho). rewrite Hl in He.
    rewrite Forall_forall in Hsafe. by apply Hsafe in He. }
  destruct (nestedAttrsScan attrParts values matchCount l1 ∅),
           (nestedAttrsScan attrParts values matchCount l2 ∅); try done.
  - destruct H1 as [id Hid]. specialize (H2 id).
    rewrite (satisfiedCount_Permutation _ _ _ _ _ Hp) in Hid. lia.
  - by apply (Hno l2) in H2.
  - destruct H2 as [id Hid]. specialize (H1 id).
    rewrite (satisfiedCount_Permutation _ _ _ _ _ Hp) in H1. lia.
  - by apply (Hno l2) in H2.
  - by apply (Hno l1) in H1.
  - by apply (Hno l1) in H1.
Qed.

(** ** What each outcome of the nested check means *)

Lemma nested_outcome rt s res rs is_ attr values :
  terraform.Resources (terraform.RootModule s) !! res = Some rs →
  terraform.Primary rs = Some is_ →
  fair rt → endsInSentinel attr → 0 < nonEmptyCount values →
  let attrParts := gostrings.Split attr "." in
  let entries := map_to_list (terraform.Attributes is_) in
  match TestCheckTypeSetElemNestedAttrs res attr values rt s with
  | Success =>
      ∃ id, nonEmptyCount values ≤ satisfiedCount attrParts values id entries
  | Failure e =>
      e = ElementNotFound res attr (WithNestedAttrs values)
            (terraform.Attributes is_) ∧
      ∀ id, satisfiedCount attrParts values id entries < nonEmptyCount values
  | Panic =>
      ∃ k v, terraform.Attributes is_ !! k = Some v ∧ overruns attrParts k
  end.
Proof.
  intros Hres Hprim [Hfv Hfa] Hend Hpos attrParts entries.
  rewrite (nested_valid rt s res rs is_ Hres Hprim attr values Hend).
  cbv zeta. rewrite (countNonEmpty_fair _ _ Hfv).
  destruct (Nat.eqb_spec (nonEmptyCount values) 0) as [Hz|_]; [lia|].
  pose proof (nestedAttrsScan_from_empty attrParts values (nonEmptyCount values)
    (range_attributes rt (terraform.Attributes is_))
    (Split_nonempty attr ".") Hpos) as Hscan.
  fold attrParts.
  destruct (nestedAttrsScan attrParts values (nonEmptyCount values)
              (range_attributes rt (terraform.Attributes is_)) ∅).
  - destruct Hscan as [id Hid]. exists id. unfold entries.
    by rewrite <- (satisfiedCount_Permutation _ _ _ _ _ (Hfa _)).
  - split; [done|]. intros id. unfold entries.
    rewrite <- (satisfiedCount_Permutation _ _ _ _ _ (Hfa _)). apply Hscan.
  - destruct Hscan as ([k v] & He & Ho). rewrite (Hfa _) in He.
    apply elem_of_map_to_list in He. by exists k, v.
Qed.

(** ** Fair runtimes, and the range over small maps *)

Lemma fair_forwards : fair forwards.
Proof. split; intros m; reflexivity. Qed.

Lemma fair_backwards : fair backwards.
Proof. split; intros m; simpl; [reflexivity|apply reverse_Permutation]. Qed.

Lemma range_attributes_singleton rt k v :
  fair_attributes rt → range_attributes rt {[k := v]} = [(k, v)].
Proof.
  intros Hfa. apply Permutation_singleton_r.
  by rewrite (Hfa _), map_to_list_singleton.
Qed.

Lemma range_attributes_pair rt k1 v1 k2 v2 :
  fair_attributes rt → k1 ≠ k2 →
  range_attributes rt (<[k1 := v1]> {[k2 := v2]}) = [(k1, v1); (k2, v2)] ∨
  range_attributes rt (<[k1 := v1]> {[k2 := v2]}) = [(k2, v2); (k1, v1)].
Proof.
  intros Hfa Hne. apply Permutation_length_2_inv.
  rewrite (Hfa _), map_to_list_insert by (by apply lookup_singleton_ne).
  by rewrite map_to_list_singleton.
Qed.

Lemma stateOf_resource res attrs :
  terraform.Resources (terraform.RootModule (stateOf res attrs)) !! res =
  Some {| terraform.Primary := Some {| terraform.Attributes := attrs |} |}.
Proof. apply lookup_singleton_eq. Qed.

Lemma nested_on_stateOf rt res attr values attrs :
  fair_values rt → endsInSentinel attr →
  TestCheckTypeSetElemNestedAttrs res attr values rt (stateOf res attrs) =
  if nonEmptyCount values =? 0 then Failure (EmptyCriteria values)
  else
    match nestedAttrsScan (gostrings.Split attr ".") values
            (nonEmptyCount values) (range_attributes rt attrs) ∅ with
    | Found => Success
    | Panicked => Panic
    | NotFound =>
        Failure (ElementNotFound res attr (WithNestedAttrs values) attrs)
    end.
Proof.
  intros Hfv Hend.
  rewrite (nested_valid rt _ res _ _ (stateOf_resource res attrs) eq_refl
             attr values Hend).
  cbv zeta. by rewrite (countNonEmpty_fair _ _ Hfv).
Qed.

(** ** Order of the range: what holds of it *)

(** X2.  The scalar check gives the same outcome, error payload included,
    in any two orders of the range that deliver every attribute once. *)
Lemma scalar_check_order_independent rt1 rt2 res attr value s :
  fair_attributes rt1 → fair_attributes rt2 →
  TestCheckTypeSetElemAttr res attr value rt1 s =
  TestCheckTypeSetElemAttr res attr value rt2 s.
Proof.
  intros H1 H2. unfold TestCheckTypeSetElemAttr.
  destruct (terraform.Resources (terraform.RootModule s) !! res) as [rs|];
    [|done].
  destruct (terraform.Primary rs) as [is_|]; [|done].
  cbv zeta.
  destruct (gostrings.Split attr "." !! _) as [l|]; [|done].
  destruct (negb _); [done|].
  rewrite (elemAttrScan_Permutation _ _
             (range_attributes rt1 (terraform.Attributes is_))
             (range_attributes rt2 (terraform.Attributes is_))); [done| |].
  - apply Split_nonempty.
  - by rewrite (H1 _), (H2 _).
Qed.

(** X9.  When no key of the resource's attributes overruns the pattern
    (three segments or more, shorter than the pattern, agreeing with it),
    the nested check gives the same outcome in any two fair orders of the
    range. *)
Lemma nested_check_order_independent_without_overrun rt1 rt2 res attr values s :
  fair rt1 → fair rt2 →
  (∀ rs is_ k v,
     terraform.Resources (terraform.RootModule s) !! res = Some rs →
     terraform.Primary rs = Some is_ →
     terraform.Attributes is_ !! k = Some v →
     ¬ overruns (gostrings.Split attr ".") k) →
  TestCheckTypeSetElemNestedAttrs res attr values rt1 s =
  TestCheckTypeSetElemNestedAttrs res attr values rt2 s.
Proof.
  intros [Hv1 Ha1] [Hv2 Ha2] Hsafe. unfold TestCheckTypeSetElemNestedAttrs.
  destruct (terraform.Resources (terraform.RootModule s) !! res) as [rs|] eqn:Hrs;
    [|done].
  destruct (terraform.Primary rs) as [is_|] eqn:His; [|done].
  cbv zeta.
  destruct (gostrings.Split attr "." !! _) as [l|]; [|done].
  destruct (negb _); [done|].
  rewrite !countNonEmpty_fair by done.
  destruct (Nat.eqb_spec (nonEmptyCount values) 0) as [|Hnz]; [done|].
  rewrite (nestedAttrsScan_Permutation _ _ _
             (range_attributes rt1 (terraform.Attributes is_))
             (range_attributes rt2 (terraform.Attributes is_))); [done| |lia| |].
  - apply Split_nonempty.
  - by rewrite (Ha1 _), (Ha2 _).
  - apply Forall_forall. intros [k v] He. rewrite (Ha1 _) in He.
    apply elem_of_map_to_list in He. simpl. by eapply Hsafe.
Qed.

Lemma overrunning_key_first_panics attrParts values matchCount k v entries matches :
  attrParts ≠ [] → overruns attrParts k →
  nestedAttrsScan attrParts values matchCount ((k, v) :: entries) matches
  = Panicked.
Proof.
  intros Hne Ho. simpl.
  destruct (Nat.ltb_spec (length (gostrings.Split k ".")) 3) as [Hlt|_].
  { destruct Ho as [Hge _]. lia. }
  by rewrite (overruns_path_panic attrParts k Hne Ho).
Qed.

(** ** Sample runs *)

Example Split_three : gostrings.Split "set.0.name" "." = ["set"; "0"; "name"].
Proof. reflexivity. Qed.

Example Split_empty : gostrings.Split "" "." = [""].
Proof. reflexivity. Qed.

Example Split_trailing : gostrings.Split "a..b." "." = ["a"; ""; "b"; ""].
Proof. reflexivity. Qed.

Example Join_back : gostrings.Join ["rule"; "0"; "port"] "." = "rule.0.port".
Proof. reflexivity. Qed.

Example nested_found :
  TestCheckTypeSetElemNestedAttrs "r" "set.*" nameAndPort forwards
    (stateOf "r" twoElements) = Success.
Proof. vm_compute. reflexivity. Qed.

Example nested_found_backwards :
  TestCheckTypeSetElemNestedAttrs "r" "set.*" nameAndPort backwards
    (stateOf "r" twoElements) = Success.
Proof. vm_compute. reflexivity. Qed.

Example nested_not_found :
  TestCheckTypeSetElemNestedAttrs "r" "set.*" {["name" := "c"]} forwards
    (stateOf "r" twoElements)
  = Failure (ElementNotFound "r" "set.*" (WithNestedAttrs {["name" := "c"]})
               twoElements).
Proof. vm_compute. reflexivity. Qed.

Example scalar_found :
  TestCheckTypeSetElemAttr "r" "set.*" "x" forwards (stateOf "r" scalarSet)
  = Success.
Proof. vm_compute. reflexivity. Qed.

Example scalar_not_found :
  TestCheckTypeSetElemAttr "r" "set.*" "y" forwards (stateOf "r" scalarSet)
  = Failure (ElementNotFound "r" "set.*" (WithValue "y") scalarSet).
Proof. vm_compute. reflexivity. Qed.

(** * The claims *)

(** C1, as amended.  For a resource with a primary instance, a pattern
    ending in the sentinel and criteria with a non-empty value, and a state
    none of whose keys of three segments or more is shorter than the
    pattern while agreeing with it: the nested check succeeds exactly when
    some single id has at least as many entries counting for it (key of
    three segments or more matching the pattern with that id, suffix a key
    of the criteria, value equal to the criterion's) as there are non-empty
    criteria; otherwise it fails with [ElementNotFound] carrying the
    resource, the pattern, the criteria and the state. *)
Theorem nested_check_succeeds_iff_some_id_reaches_count
    rt s res rs is_ attr values :
  fair rt →
  terraform.Resources (terraform.RootModule s) !! res = Some rs →
  terraform.Primary rs = Some is_ →
  endsInSentinel attr →
  (∃ k v, values !! k = Some v ∧ v ≠ "") →
  map_Forall (λ k _, ¬ overruns (gostrings.Split attr ".") k)
    (terraform.Attributes is_) →
  let reached :=
    ∃ id, nonEmptyCount values ≤
            satisfiedCount (gostrings.Split attr ".") values id
              (map_to_list (terraform.Attributes is_)) in
  (TestCheckTypeSetElemNestedAttrs res attr values rt s = Success ↔ reached) ∧
  (¬ reached →
   TestCheckTypeSetElemNestedAttrs res attr values rt s =
   Failure (ElementNotFound res attr (WithNestedAttrs values)
              (terraform.Attributes is_))).
Proof.
  intros Hfair Hres Hprim Hend Hne Hsafe reached.
  apply nonEmptyCount_pos in Hne.
  pose proof (nested_outcome rt s res rs is_ attr values Hres Hprim Hfair Hend Hne)
    as Hout. cbv zeta in Hout.
  destruct (TestCheckTypeSetElemNestedAttrs res attr values rt s) as [|e|].
  - split; [done|]. intros Hno. by destruct Hno.
  - destruct Hout as [-> Hlt]. split; [|done]. split; [done|].
    intros [id Hid]. specialize (Hlt id). lia.
  - destruct Hout as (k & v & Hk & Ho). by apply Hsafe in Hk.
Qed.

Lemma nested_check_succeeds_iff_witness :
  TestCheckTypeSetElemNestedAttrs "r" "set.*" nameAndPort forwards
    (stateOf "r" twoElements) = Success.
Proof.
  apply (nested_check_succeeds_iff_some_id_reaches_count forwards
           (stateOf "r" twoElements) "r"
           {| terraform.Primary := Some {| terraform.Attributes := twoElements |} |}
           {| terraform.Attributes := twoElements |} "set.*" nameAndPort).
  - apply fair_forwards.
  - vm_compute. reflexivity.
  - reflexivity.
  - vm_compute. reflexivity.
  - exists "name", "a". split; [vm_compute; reflexivity|discriminate].
  - apply (bool_decide_unpack _). vm_compute. exact I.
  - exists "0". vm_compute. lia.
Defined.

(** C1 as it is worded fails: under the pattern ["*"] the key ["a.b"] of
    [{"a.b":"x"}] matches with the id ["a"], what follows the id is the key
    ["b"] of the criteria [{"b":"x"}] and the values are equal, so one
    entry counts and the one non-empty criterion is reached; the check
    skips the key for having fewer than three segments and fails. *)
Lemma nested_check_two_segment_key_counterexample :
  endsInSentinel "*" ∧
  (∃ id, nonEmptyCount onlyB ≤
           claimedCount (gostrings.Split "*" ".") onlyB id
             (map_to_list twoSegments)) ∧
  TestCheckTypeSetElemNestedAttrs "r" "*" onlyB forwards (stateOf "r" twoSegments)
  = Failure (ElementNotFound "r" "*" (WithNestedAttrs onlyB) twoSegments).
Proof.
  split; [reflexivity|]. split.
  - exists "a". vm_compute. lia.
  - vm_compute. reflexivity.
Qed.

(** C2, at the input where the code departs from it.  The state
    [{"set.0.name":"b","set.0.port":""}] has no entry with the value ["a"],
    so the only non-empty criterion of [{"name":"a","port":""}] is met by
    no element; in every order of the range the entry ["set.0.port"], met
    by the empty criterion, brings the counter of id ["0"] to the threshold
    and the check succeeds. *)
Theorem empty_criterion_reaches_threshold rt :
  fair rt →
  nonEmptyCount nameAndNoPort = 1 ∧
  (∀ k v, emptyPort !! k = Some v → v ≠ "a") ∧
  TestCheckTypeSetElemNestedAttrs "r" "set.*" nameAndNoPort rt
    (stateOf "r" emptyPort) = Success.
Proof.
  intros [Hfv Hfa]. split; [vm_compute; reflexivity|]. split.
  - intros k v Hk. unfold emptyPort in Hk.
    apply lookup_insert_Some in Hk as [[_ <-]|[_ Hk]]; [discriminate|].
    apply lookup_singleton_Some in Hk as [_ <-]. discriminate.
  - rewrite nested_on_stateOf by (done || reflexivity).
    destruct (range_attributes_pair rt "set.0.name" "b" "set.0.port" "" Hfa)
      as [Hr|Hr]; [discriminate| |]; unfold emptyPort; rewrite Hr;
      vm_compute; reflexivity.
Qed.

Lemma empty_criterion_reaches_threshold_witness :
  TestCheckTypeSetElemNestedAttrs "r" "set.*" nameAndNoPort forwards
    (stateOf "r" emptyPort) = Success.
Proof.
  apply (empty_criterion_reaches_threshold forwards).
  split; intros m; reflexivity.
Defined.

(** C3, at the input where the code departs from it.  For the state
    [{"a.b.c":"x"}] and the pattern ["a.b.c.*"] the key has three segments,
    agrees with the pattern on all of them and is shorter than it: the
    read of [stateKeyParts[3]] is out of range and the check panics. *)
Theorem short_agreeing_key_panics rt :
  fair rt →
  overruns (gostrings.Split "a.b.c.*" ".") "a.b.c" ∧
  TestCheckTypeSetElemNestedAttrs "r" "a.b.c.*" onlyD rt (stateOf "r" shortKey)
  = Panic.
Proof.
  intros [Hfv Hfa]. split; [compute_done|].
  rewrite nested_on_stateOf by (done || reflexivity).
  unfold shortKey. rewrite (range_attributes_singleton rt _ _ Hfa).
  vm_compute. reflexivity.
Qed.

Lemma short_agreeing_key_panics_witness :
  TestCheckTypeSetElemNestedAttrs "r" "a.b.c.*" onlyD forwards
    (stateOf "r" shortKey) = Panic.
Proof.
  apply (short_agreeing_key_panics forwards).
  split; intros m; reflexivity.
Defined.

(** C4.  For a resource with a primary instance and a pattern ending in the
    sentinel, the scalar check succeeds exactly when the state has a key
    with as many segments as the pattern, whose value is the expected one
    and whose segments are the pattern's position for position, a sentinel
    in the pattern standing for any segment; when there is none it fails
    with [ElementNotFound] carrying the pattern, the value and the state. *)
Theorem scalar_check_succeeds_iff_hit rt s res rs is_ attr value :
  fair_attributes rt →
  terraform.Resources (terraform.RootModule s) !! res = Some rs →
  terraform.Primary rs = Some is_ →
  endsInSentinel attr →
  let hit :=
    ∃ k v, terraform.Attributes is_ !! k = Some v ∧
           length (gostrings.Split k ".") = length (gostrings.Split attr ".") ∧
           v = value ∧
           Forall2 agrees (gostrings.Split attr ".") (gostrings.Split k ".") in
  (TestCheckTypeSetElemAttr res attr value rt s = Success ↔ hit) ∧
  (¬ hit →
   TestCheckTypeSetElemAttr res attr value rt s =
   Failure (ElementNotFound res attr (WithValue value)
              (terraform.Attributes is_))).
Proof.
  intros Hfa Hres Hprim Hend hit.
  rewrite (scalar_valid rt s res rs is_ Hres Hprim attr value Hend).
  pose proof (elemAttrScan_spec (gostrings.Split attr ".") value
    (range_attributes rt (terraform.Attributes is_)) (Split_nonempty attr "."))
    as Hscan.
  destruct (elemAttrScan (gostrings.Split attr ".") value
              (range_attributes rt (terraform.Attributes is_))).
  - assert (hit) as Hhit.
    { destruct Hscan as ([k v] & He & Hh). rewrite (Hfa _) in He.
      apply elem_of_map_to_list in He. by exists k, v. }
    split; [done|]. intros Hno. by destruct Hno.
  - split; [|done]. split; [done|].
    intros (k & v & Hk & Hh). exfalso. apply (Hscan (k, v)); [|done].
    rewrite (Hfa _). by apply elem_of_map_to_list.
  - done.
Qed.

Lemma scalar_check_succeeds_iff_hit_witness :
  TestCheckTypeSetElemAttr "r" "set.*" "x" forwards (stateOf "r" scalarSet)
  = Success.
Proof.
  apply (scalar_check_succeeds_iff_hit forwards (stateOf "r" scalarSet) "r"
           {| terraform.Primary := Some {| terraform.Attributes := scalarSet |} |}
           {| terraform.Attributes := scalarSet |} "set.*" "x").
  - intros m. reflexivity.
  - vm_compute. reflexivity.
  - reflexivity.
  - vm_compute. reflexivity.
  - exists "set.0", "x". split; [vm_compute; reflexivity|].
    split; [reflexivity|]. split; [reflexivity|].
    apply (bool_decide_unpack _). vm_compute. exact I.
Defined.

Lemma nested_check_skips_short_keys res attr values rt s :
  TestCheckTypeSetElemNestedAttrs res attr values rt s =
  TestCheckTypeSetElemNestedAttrs res attr values (skipKeysBelow 3 rt) s.
Proof.
  unfold TestCheckTypeSetElemNestedAttrs.
  destruct (terraform.Resources (terraform.RootModule s) !! res) as [rs|];
    [|done].
  destruct (terraform.Primary rs) as [is_|]; [|done].
  cbv zeta.
  destruct (gostrings.Split attr "." !! _) as [l|]; [|done].
  destruct (negb _); [done|].
  simpl range_values.
  destruct (countNonEmpty (range_values rt values) 0 =? 0); [done|].
  by rewrite nestedAttrsScan_skip_short.
Qed.

Lemma nonEmptyCount_singleton (k v : string) :
  v ≠ "" → nonEmptyCount {[k := v]} = 1.
Proof.
  intros Hv. unfold nonEmptyCount. rewrite map_to_list_singleton.
  by rewrite filter_cons_True.
Qed.

(** A key of three segments or more that agrees with the pattern, alone in
    the state, is found by the criterion made of what follows its id. *)
Lemma nestedAttrsScan_single_key attrParts stateKey v :
  attrParts ≠ [] →
  3 ≤ length (gostrings.Split stateKey ".") →
  length attrParts ≤ length (gostrings.Split stateKey ".") →
  Forall2 agrees attrParts
    (take (length attrParts) (gostrings.Split stateKey ".")) →
  nestedAttrsScan attrParts
    {[ gostrings.Join (drop (length attrParts) (gostrings.Split stateKey "."))
         "." := v ]}
    1 [(stateKey, v)] ∅ = Found.
Proof.
  intros Hne Hge Hlen Hall.
  set (values := {[ gostrings.Join _ "." := v ]} : gmap string string).
  pose proof (nestedAttrsScan_from_empty attrParts values 1 [(stateKey, v)]
                Hne ltac:(lia)) as Hscan.
  destruct (nestedAttrsScan attrParts values 1 [(stateKey, v)] ∅).
  - done.
  - exfalso.
    destruct (gostrings.Split stateKey "." !! (length attrParts - 1))
      as [id|] eqn:Hid.
    2:{ apply lookup_ge_None in Hid. destruct attrParts; [done|simpl in *; lia]. }
    specialize (Hscan id). rewrite satisfiedCount_cons in Hscan.
    rewrite decide_True in Hscan; [lia|].
    split; [done|]. split; [by split|]. apply lookup_singleton_eq.
  - exfalso. destruct Hscan as (e & He & _ & Hlt & _).
    apply list_elem_of_singleton in He as ->. simpl in Hlt. lia.
Qed.

(** C5, as amended.  The bound below which the nested check skips a key is
    three segments, whatever the pattern's length.  First, on every state
    and for every pattern and criteria the outcome is the one the check
    has when the range does not deliver the keys of fewer than three
    segments at all.  Second, every key of three segments or more that has
    at least as many segments as the pattern and agrees with it is
    considered: alone in the state, with a non-empty value, it makes the
    check succeed on the criterion made of what follows its id, and the
    check fails with [ElementNotFound] once that key is not delivered.
    Nothing is said of the keys of three segments or more that are shorter
    than the pattern. *)
Theorem nested_check_considers_keys_from_three_segments :
  (∀ res attr values rt s,
     TestCheckTypeSetElemNestedAttrs res attr values rt s =
     TestCheckTypeSetElemNestedAttrs res attr values (skipKeysBelow 3 rt) s) ∧
  (∀ rt res attr stateKey v,
     fair rt → endsInSentinel attr → v ≠ "" →
     3 ≤ length (gostrings.Split stateKey ".") →
     length (gostrings.Split attr ".") ≤ length (gostrings.Split stateKey ".") →
     Forall2 agrees (gostrings.Split attr ".")
       (take (length (gostrings.Split attr "."))
             (gostrings.Split stateKey ".")) →
     let values : gmap string string :=
       {[ gostrings.Join
            (drop (length (gostrings.Split attr "."))
                  (gostrings.Split stateKey ".")) "." := v ]} in
     let attrs : gmap string string := {[ stateKey := v ]} in
     TestCheckTypeSetElemNestedAttrs res attr values rt (stateOf res attrs)
       = Success ∧
     TestCheckTypeSetElemNestedAttrs res attr values
       (skipKeysBelow (S (length (gostrings.Split stateKey "."))) rt)
       (stateOf res attrs)
       = Failure (ElementNotFound res attr (WithNestedAttrs values) attrs)).
Proof.
  split; [apply nested_check_skips_short_keys|].
  intros rt res attr stateKey v [Hfv Hfa] Hend Hv Hge Hlen Hall values attrs.
  assert (Hmc : nonEmptyCount values = 1) by by apply nonEmptyCount_singleton.
  split.
  - rewrite nested_on_stateOf by done. rewrite Hmc. cbn [Nat.eqb].
    unfold attrs. rewrite (range_attributes_singleton rt _ _ Hfa).
    unfold values.
    by rewrite (nestedAttrsScan_single_key _ _ _ (Split_nonempty attr ".")
                  Hge Hlen Hall).
  - rewrite nested_on_stateOf by done. rewrite Hmc. cbn [Nat.eqb].
    cbn [skipKeysBelow range_attributes]. unfold attrs.
    rewrite (range_attributes_singleton rt _ _ Hfa).
    rewrite filter_cons_False by (simpl; lia). done.
Qed.

Lemma nested_check_considers_keys_from_three_segments_witness :
  TestCheckTypeSetElemNestedAttrs "r" "set.*" onlyName forwards
    (stateOf "r" oneName) = Success ∧
  TestCheckTypeSetElemNestedAttrs "r" "set.*" onlyName
    (skipKeysBelow 4 forwards) (stateOf "r" oneName)
  = Failure (ElementNotFound "r" "set.*" (WithNestedAttrs onlyName) oneName).
Proof.
  apply (proj2 nested_check_considers_keys_from_three_segments forwards "r"
           "set.*" "set.0.name" "a").
  - split; intros m; reflexivity.
  - vm_compute. reflexivity.
  - discriminate.
  - vm_compute. lia.
  - vm_compute. lia.
  - apply (bool_decide_unpack _). vm_compute. exact I.
Defined.

(** C5 as it is worded fails: the pattern ["set.*"] has two segments, so
    the bound of the claim is four; the key ["set.0.name"] has three, and
    the check succeeds on [{"set.0.name":"a"}] with the criteria
    [{"name":"a"}] while it fails once that key is not delivered. *)
Lemma nested_check_bound_plus_two_counterexample :
  length (gostrings.Split "set.0.name" ".")
    < length (gostrings.Split "set.*" ".") + 2 ∧
  TestCheckTypeSetElemNestedAttrs "r" "set.*" onlyName forwards
    (stateOf "r" oneName) = Success ∧
  TestCheckTypeSetElemNestedAttrs "r" "set.*" onlyName
    (skipKeysBelow (length (gostrings.Split "set.*" ".") + 2) forwards)
    (stateOf "r" oneName)
  = Failure (ElementNotFound "r" "set.*" (WithNestedAttrs onlyName) oneName).
Proof.
  split; [vm_compute; lia|]. split; vm_compute; reflexivity.
Qed.

(** C6.  A success of the nested check always comes with one id that has,
    by itself, as many entries counting for it as there are non-empty
    criteria; and for the state [{"set.0.name":"a","set.1.port":"80"}],
    the pattern ["set.*"] and the criteria [{"name":"a","port":"80"}] the
    check fails with [ElementNotFound] in every order of the range. *)
Theorem nested_check_counts_per_id rt :
  fair rt →
  (∀ s res rs is_ attr values,
     terraform.Resources (terraform.RootModule s) !! res = Some rs →
     terraform.Primary rs = Some is_ →
     TestCheckTypeSetElemNestedAttrs res attr values rt s = Success →
     ∃ id, nonEmptyCount values ≤
             satisfiedCount (gostrings.Split attr ".") values id
               (map_to_list (terraform.Attributes is_))) ∧
  TestCheckTypeSetElemNestedAttrs "r" "set.*" nameAndPort rt
    (stateOf "r" splitOverIds)
  = Failure (ElementNotFound "r" "set.*" (WithNestedAttrs nameAndPort)
               splitOverIds).
Proof.
  intros Hfair. split.
  - intros s res rs is_ attr values Hres Hprim Hok.
    destruct (decide (endsInSentinel attr)) as [Hend|Hend].
    2:{ rewrite (nested_invalid rt s res rs is_ Hres Hprim attr values Hend)
          in Hok. discriminate. }
    destruct (nonEmptyCount values) as [|n] eqn:Hn.
    { rewrite (nested_valid rt s res rs is_ Hres Hprim attr values Hend) in Hok.
      cbv zeta in Hok. rewrite (countNonEmpty_fair _ _ (proj1 Hfair)), Hn in Hok.
      discriminate. }
    pose proof (nested_outcome rt s res rs is_ attr values Hres Hprim Hfair Hend
                  ltac:(lia)) as Hout.
    cbv zeta in Hout. rewrite Hok, Hn in Hout. done.
  - destruct Hfair as [Hfv Hfa].
    rewrite nested_on_stateOf by (done || reflexivity).
    destruct (range_attributes_pair rt "set.0.name" "a" "set.1.port" "80" Hfa)
      as [Hr|Hr]; [discriminate| |]; unfold splitOverIds; rewrite Hr;
      vm_compute; reflexivity.
Qed.

Lemma nested_check_counts_per_id_witness :
  TestCheckTypeSetElemNestedAttrs "r" "set.*" nameAndPort forwards
    (stateOf "r" splitOverIds)
  = Failure (ElementNotFound "r" "set.*" (WithNestedAttrs nameAndPort)
               splitOverIds).
Proof.
  apply (nested_check_counts_per_id forwards).
  split; intros m; reflexivity.
Defined.

(** C7.  For a resource with a primary instance and a pattern whose last
    segment is not the sentinel, both checks fail with [InvalidPattern],
    whatever the state, the expected value, the criteria and the order of
    the range are. *)
Theorem invalid_pattern_rejected rt s res rs is_ attr value values :
  terraform.Resources (terraform.RootModule s) !! res = Some rs →
  terraform.Primary rs = Some is_ →
  ¬ endsInSentinel attr →
  TestCheckTypeSetElemAttr res attr value rt s =
    Failure (InvalidPattern attr sentinelIndex) ∧
  TestCheckTypeSetElemNestedAttrs res attr values rt s =
    Failure (InvalidPattern attr sentinelIndex).
Proof.
  intros Hres Hprim Hend. split.
  - by apply (scalar_invalid rt s res rs is_).
  - by apply (nested_invalid rt s res rs is_).
Qed.

Lemma invalid_pattern_rejected_witness :
  TestCheckTypeSetElemAttr "r" "set.0" "x" forwards (stateOf "r" scalarSet) =
    Failure (InvalidPattern "set.0" sentinelIndex) ∧
  TestCheckTypeSetElemNestedAttrs "r" "set.0" nameAndPort forwards
    (stateOf "r" scalarSet) =
    Failure (InvalidPattern "set.0" sentinelIndex).
Proof.
  apply (invalid_pattern_rejected forwards (stateOf "r" scalarSet) "r"
           {| terraform.Primary := Some {| terraform.Attributes := scalarSet |} |}
           {| terraform.Attributes := scalarSet |} "set.0" "x" nameAndPort).
  - vm_compute. reflexivity.
  - reflexivity.
  - vm_compute. discriminate.
Defined.

(** C8.  For a resource with a primary instance and a pattern ending in the
    sentinel, criteria whose values are all empty (the empty map too) make
    the nested check fail with [EmptyCriteria], whatever the state holds
    and whatever the range over it would deliver. *)
Theorem empty_criteria_rejected rt s res rs is_ attr values :
  fair_values rt →
  terraform.Resources (terraform.RootModule s) !! res = Some rs →
  terraform.Primary rs = Some is_ →
  endsInSentinel attr →
  (∀ k v, values !! k = Some v → v = "") →
  TestCheckTypeSetElemNestedAttrs res attr values rt s =
  Failure (EmptyCriteria values).
Proof.
  intros Hfv Hres Hprim Hend Hall.
  rewrite (nested_valid rt s res rs is_ Hres Hprim attr values Hend).
  cbv zeta. rewrite (countNonEmpty_fair _ _ Hfv).
  apply nonEmptyCount_zero in Hall. by rewrite Hall.
Qed.

Lemma empty_criteria_rejected_witness :
  TestCheckTypeSetElemNestedAttrs "r" "set.*" onlyNoPort forwards
    (stateOf "r" twoElements) = Failure (EmptyCriteria onlyNoPort).
Proof.
  apply (empty_criteria_rejected forwards (stateOf "r" twoElements) "r"
           {| terraform.Primary := Some {| terraform.Attributes := twoElements |} |}
           {| terraform.Attributes := twoElements |} "set.*" onlyNoPort).
  - intros m. reflexivity.
  - vm_compute. reflexivity.
  - reflexivity.
  - vm_compute. reflexivity.
  - intros k v Hk. unfold onlyNoPort in Hk.
    apply lookup_singleton_Some in Hk as [_ <-]. reflexivity.
Defined.

(** C9, at the input where the code departs from it.  On the state
    [{"a.b.c.0.d":"x","a.b.c":"y"}] with the pattern ["a.b.c.*"] and the
    criteria [{"d":"x"}], two orders of the range over the same map, each
    delivering every entry once, give two outcomes: the nested check
    succeeds when the element comes first and panics when the short key
    does. *)
Theorem nested_check_outcome_depends_on_order :
  fair forwards ∧ fair backwards ∧
  TestCheckTypeSetElemNestedAttrs "r" "a.b.c.*" onlyD forwards
    (stateOf "r" shortKeyAndElement) = Success ∧
  TestCheckTypeSetElemNestedAttrs "r" "a.b.c.*" onlyD backwards
    (stateOf "r" shortKeyAndElement) = Panic.
Proof.
  split; [apply fair_forwards|]. split; [apply fair_backwards|].
  split; vm_compute; reflexivity.
Qed.

(** C10.  When the resource is not in the root module's resource map, both
    checks fail with [ResourceNotFound] carrying the name and the module
    path; when it is there without a primary instance, both fail with
    [InstanceNotFound]; in both cases whatever the pattern, the value, the
    criteria and the order of the range are. *)
Theorem missing_resource_or_instance rt s res attr value values :
  let ms := terraform.RootModule s in
  (terraform.Resources ms !! res = None →
   TestCheckTypeSetElemNestedAttrs res attr values rt s =
     Failure (ResourceNotFound res (terraform.Path ms)) ∧
   TestCheckTypeSetElemAttr res attr value rt s =
     Failure (ResourceNotFound res (terraform.Path ms))) ∧
  (∀ rs, terraform.Resources ms !! res = Some rs →
         terraform.Primary rs = None →
   TestCheckTypeSetElemNestedAttrs res attr values rt s =
     Failure (InstanceNotFound res (terraform.Path ms)) ∧
   TestCheckTypeSetElemAttr res attr value rt s =
     Failure (InstanceNotFound res (terraform.Path ms))).
Proof.
  intros ms. unfold TestCheckTypeSetElemNestedAttrs, TestCheckTypeSetElemAttr.
  fold ms. split.
  - intros ->. done.
  - intros rs -> ->. done.
Qed.

Lemma missing_resource_or_instance_witness :
  (TestCheckTypeSetElemNestedAttrs "r" "set.0" nameAndPort forwards noResources =
     Failure (ResourceNotFound "r" ["root"]) ∧
   TestCheckTypeSetElemAttr "r" "set.0" "x" forwards noResources =
     Failure (ResourceNotFound "r" ["root"])) ∧
  (TestCheckTypeSetElemNestedAttrs "r" "set.0" nameAndPort forwards (noPrimary "r") =
     Failure (InstanceNotFound "r" ["root"]) ∧
   TestCheckTypeSetElemAttr "r" "set.0" "x" forwards (noPrimary "r") =
     Failure (InstanceNotFound "r" ["root"])).
Proof.
  split.
  - apply (missing_resource_or_instance forwards noResources "r" "set.0" "x"
             nameAndPort).
    reflexivity.
  - apply (proj2 (missing_resource_or_instance forwards (noPrimary "r") "r"
                    "set.0" "x" nameAndPort)
             {| terraform.Primary := None |}).
    + vm_compute. reflexivity.
    + reflexivity.
Defined.


(** * Further properties of the two checks *)

(** ** The nested scan, one entry at a time *)

Lemma nestedAttrsScan_cons attrParts values matchCount k v entries matches :
  attrParts ≠ [] →
  nestedAttrsScan attrParts values matchCount ((k, v) :: entries) matches =
  match entryEffect attrParts values (k, v) with
  | Overrun => Panicked
  | Skip => nestedAttrsScan attrParts values matchCount entries matches
  | Count id =>
      if counter matches id + 1 =? matchCount then Found
      else nestedAttrsScan attrParts values matchCount entries
             (<[id := counter matches id + 1]> matches)
  end.
Proof.
  intros Hne.
  assert (Hskip : ¬ overruns attrParts k →
            (∀ id, ¬ satisfies attrParts values id (k, v)) →
            entryEffect attrParts values (k, v) = Skip).
  { intros Ho Hs. unfold entryEffect. cbn [fst].
    rewrite decide_False by done.
    destruct (gostrings.Split k "." !! _) as [id|]; [|done].
    by rewrite decide_False. }
  simpl nestedAttrsScan.
  destruct (Nat.ltb_spec (length (gostrings.Split k ".")) 3) as [Hshort|Hlong].
  { rewrite Hskip; [done| |].
    - intros (Hge & _). lia.
    - intros id. by apply short_key_not_satisfied. }
  destruct (pathMatchLoop (length attrParts) (gostrings.Split k ".") attrParts
              0 false) as [[|]|] eqn:Hpath.
  - destruct (path_match_in_range _ _ Hne Hpath) as [_ Hlen].
    assert (Hno : ¬ overruns attrParts k) by (intros (_ & Hlt & _); lia).
    destruct (gostrings.Split k "." !! (length attrParts - 1)) as [id0|] eqn:Hid.
    2:{ apply lookup_ge_None in Hid. destruct attrParts; [done|simpl in *; lia]. }
    destruct (Nat.ltb_spec (length (gostrings.Split k ".")) (length attrParts));
      [lia|].
    pose proof (λ id, path_match_satisfies attrParts values k v Hne id0 id
                        Hlong Hpath Hid) as Hsat.
    destruct (values !! gostrings.Join
                (drop (length attrParts) (gostrings.Split k ".")) ".")
      as [v'|] eqn:Hv.
    2:{ rewrite Hskip; [done|done|]. intros id. rewrite Hsat. by intros [_ ?]. }
    destruct (String.eqb_spec v' v) as [->|Hvne].
    2:{ rewrite Hskip; [done|done|]. intros id. rewrite Hsat.
        intros [_ ?]. congruence. }
    assert (entryEffect attrParts values (k, v) = Count id0) as ->.
    { unfold entryEffect. cbn [fst]. rewrite decide_False by done.
      rewrite Hid. rewrite decide_True; [done|]. by apply Hsat. }
    by rewrite counter_insert_self.
  - rewrite Hskip; [done| |].
    + intros Ho. by rewrite (overruns_path_panic _ _ Hne Ho) in Hpath.
    + intros id. by apply path_mismatch_not_satisfied.
  - unfold entryEffect. cbn [fst]. rewrite decide_True; [done|].
    by apply path_panic_overruns.
Qed.

Lemma entryEffect_Count attrParts values e id :
  entryEffect attrParts values e = Count id →
  ¬ overruns attrParts e.1 ∧
  gostrings.Split e.1 "." !! (length attrParts - 1) = Some id ∧
  satisfies attrParts values id e.
Proof.
  unfold entryEffect. destruct (decide (overruns attrParts e.1)); [done|].
  destruct (gostrings.Split e.1 "." !! _) as [id'|]; [|done].
  destruct (decide (satisfies attrParts values id' e)); [|done].
  by intros [= <-].
Qed.

Lemma entryEffect_Overrun attrParts values e :
  entryEffect attrParts values e = Overrun ↔ overruns attrParts e.1.
Proof.
  unfold entryEffect. destruct (decide (overruns attrParts e.1)); [done|].
  destruct (gostrings.Split e.1 "." !! _) as [id'|]; [|done].
  destruct (decide (satisfies attrParts values id' e)); done.
Qed.

(** A scan that reaches the end has met no key that overruns. *)
Lemma nestedAttrsScan_NotFound_safe attrParts values matchCount entries :
  attrParts ≠ [] →
  ∀ matches,
    nestedAttrsScan attrParts values matchCount entries matches = NotFound →
    Forall (λ e : string * string, ¬ overruns attrParts e.1) entries.
Proof.
  intros Hne. induction entries as [|[k v] entries IH]; intros matches Hscan.
  { constructor. }
  rewrite nestedAttrsScan_cons in Hscan by done.
  destruct (entryEffect attrParts values (k, v)) as [| |id] eqn:Heff.
  - done.
  - constructor; [|by eapply IH].
    intros Ho. apply (entryEffect_Overrun attrParts values (k, v)) in Ho.
    congruence.
  - constructor.
    + by apply entryEffect_Count in Heff as [? _].
    + destruct (counter matches id + 1 =? matchCount); [done|by eapply IH].
Qed.

Lemma nestedAttrsScan_NotFound_iff attrParts values matchCount entries :
  attrParts ≠ [] → 0 < matchCount →
  nestedAttrsScan attrParts values matchCount entries ∅ = NotFound ↔
  Forall (λ e : string * string, ¬ overruns attrParts e.1) entries ∧
  ∀ id, satisfiedCount attrParts values id entries < matchCount.
Proof.
  intros Hne Hpos.
  pose proof (nestedAttrsScan_from_empty attrParts values matchCount entries
                Hne Hpos) as Hspec.
  split.
  - intros Hscan. split; [by eapply nestedAttrsScan_NotFound_safe|].
    by rewrite Hscan in Hspec.
  - intros [Hsafe Hlt].
    destruct (nestedAttrsScan attrParts values matchCount entries ∅).
    + destruct Hspec as [id Hid]. specialize (Hlt id). lia.
    + done.
    + destruct Hspec as (e & He & Ho). rewrite Forall_forall in Hsafe.
      by apply Hsafe in He.
Qed.

Lemma range_safe_iff rt attrParts (m : gmap string string) :
  fair_attributes rt →
  Forall (λ e : string * string, ¬ overruns attrParts e.1)
    (range_attributes rt m) ↔
  map_Forall (λ k _, ¬ overruns attrParts k) m.
Proof.
  intros Hfa. rewrite Forall_forall. split.
  - intros Hall k v Hk. apply (Hall (k, v)). rewrite (Hfa m).
    by apply elem_of_map_to_list.
  - intros Hall [k v] He. rewrite (Hfa m) in He.
    apply elem_of_map_to_list in He. by apply (Hall k v).
Qed.

(** The nested check, once the resource, the pattern and the criteria have
    passed. *)
Lemma nested_scan_form rt s res rs is_ attr values :
  terraform.Resources (terraform.RootModule s) !! res = Some rs →
  terraform.Primary rs = Some is_ →
  fair_values rt → endsInSentinel attr → 0 < nonEmptyCount values →
  TestCheckTypeSetElemNestedAttrs res attr values rt s =
  match nestedAttrsScan (gostrings.Split attr ".") values (nonEmptyCount values)
          (range_attributes rt (terraform.Attributes is_)) ∅ with
  | Found => Success
  | Panicked => Panic
  | NotFound =>
      Failure (ElementNotFound res attr (WithNestedAttrs values)
                 (terraform.Attributes is_))
  end.
Proof.
  intros Hres Hprim Hfv Hend Hpos.
  rewrite (nested_valid rt s res rs is_ Hres Hprim attr values Hend).
  cbv zeta. rewrite (countNonEmpty_fair _ _ Hfv).
  destruct (Nat.eqb_spec (nonEmptyCount values) 0); [lia|done].
Qed.

(** What a success of the nested check went through. *)
Lemma nested_success_inv rt s res attr values :
  TestCheckTypeSetElemNestedAttrs res attr values rt s = Success →
  ∃ rs is_,
    terraform.Resources (terraform.RootModule s) !! res = Some rs ∧
    terraform.Primary rs = Some is_ ∧
    endsInSentinel attr ∧
    countNonEmpty (range_values rt values) 0 ≠ 0 ∧
    nestedAttrsScan (gostrings.Split attr ".") values
      (countNonEmpty (range_values rt values) 0)
      (range_attributes rt (terraform.Attributes is_)) ∅ = Found.
Proof.
  unfold TestCheckTypeSetElemNestedAttrs, endsInSentinel. cbv zeta.
  destruct (terraform.Resources (terraform.RootModule s) !! res) as [rs|];
    [|done].
  destruct (terraform.Primary rs) as [is_|] eqn:Hprim; [|done].
  rewrite lookup_last_index.
  destruct (last (gostrings.Split attr ".")) as [l|]; [|done].
  destruct (String.eqb_spec l sentinelIndex) as [->|]; [|done]. cbn [negb].
  destruct (Nat.eqb_spec (countNonEmpty (range_values rt values) 0) 0);
    [done|].
  destruct (nestedAttrsScan _ _ _ _ _) eqn:Hscan; try done.
  intros _. by exists rs, is_.
Qed.

(** ** More criteria *)

Lemma satisfies_more_criteria attrParts (values values' : gmap string string)
    id e :
  values ⊆ values' →
  satisfies attrParts values id e → satisfies attrParts values' id e.
Proof.
  intros Hsub (Hge & Hm & Hv). split; [done|]. split; [done|].
  by eapply lookup_weaken.
Qed.

Lemma nestedAttrsScan_more_criteria attrParts (values values' : gmap string string)
    matchCount entries :
  attrParts ≠ [] → values ⊆ values' →
  ∀ matches matches',
    (∀ id, counter matches' id < matchCount) →
    (∀ id, counter matches id ≤ counter matches' id) →
    nestedAttrsScan attrParts values matchCount entries matches = Found →
    nestedAttrsScan attrParts values' matchCount entries matches' = Found.
Proof.
  intros Hne Hsub.
  induction entries as [|[k v] entries IH]; intros m m' Hinv Hle Hscan; [done|].
  rewrite nestedAttrsScan_cons in Hscan by done.
  rewrite nestedAttrsScan_cons by done.
  assert (Hstep : ∀ id m0,
            (∀ id', counter m0 id' ≤ counter m' id') →
            counter m' id + 1 ≠ matchCount →
            (∀ id', counter (<[id := counter m' id + 1]> m') id' < matchCount) ∧
            (∀ id', counter m0 id'
                    ≤ counter (<[id := counter m' id + 1]> m') id')).
  { intros id m0 Hle0 Hneq. split; intros id'; rewrite counter_insert;
      destruct (decide (id' = id)) as [->|]; try done.
    - specialize (Hinv id). lia.
    - specialize (Hle0 id). lia. }
  destruct (entryEffect attrParts values (k, v)) as [| |id] eqn:He.
  - done.
  - destruct (entryEffect attrParts values' (k, v)) as [| |id'] eqn:He'.
    + apply entryEffect_Overrun in He'.
      apply (entryEffect_Overrun attrParts values) in He'. congruence.
    + by eapply IH.
    + destruct (Nat.eqb_spec (counter m' id' + 1) matchCount) as [|Hneq];
        [done|].
      destruct (Hstep id' m Hle Hneq) as [Hinv' Hle'].
      by eapply IH.
  - apply entryEffect_Count in He as (Hno & Hid & Hsat).
    assert (entryEffect attrParts values' (k, v) = Count id) as ->.
    { unfold entryEffect. rewrite decide_False by done. rewrite Hid.
      rewrite decide_True; [done|]. by eapply satisfies_more_criteria. }
    destruct (Nat.eqb_spec (counter m id + 1) matchCount) as [Heq|Hneq1].
    + destruct (Nat.eqb_spec (counter m' id + 1) matchCount) as [|Hneq];
        [done|]. specialize (Hinv id). specialize (Hle id). lia.
    + destruct (Nat.eqb_spec (counter m' id + 1) matchCount) as [|Hneq];
        [done|].
      eapply IH; [| |exact Hscan].
      * apply (Hstep id m Hle Hneq).
      * intros id'. rewrite !counter_insert.
        destruct (decide (id' = id)) as [->|]; [|apply Hle].
        specialize (Hle id). lia.
Qed.

Lemma nonEmptyCount_insert_empty (values : gmap string string) k :
  values !! k = None →
  nonEmptyCount (<[k := ""]> values) = nonEmptyCount values.
Proof.
  intros Hk. unfold nonEmptyCount.
  rewrite (map_to_list_insert values k "" Hk).
  by rewrite filter_cons_False by (simpl; intros H; by apply H).
Qed.

(** ** The scalar scan on fewer entries *)

Lemma elemAttrScan_candidates attr value entries :
  elemAttrScan (gostrings.Split attr ".") value entries =
  elemAttrScan (gostrings.Split attr ".") value
    (filter (scalarCandidate attr value) entries).
Proof.
  induction entries as [|[k v] entries IH]; [done|].
  rewrite filter_cons.
  destruct (decide (scalarCandidate attr value (k, v))) as [[Hv Hl]|Hno].
  - simpl in *. rewrite Hv, Hl, String.eqb_refl, Nat.eqb_refl.
    destruct (elemAttrLoop _ _ _ _) as [[|]|]; done.
  - simpl. destruct (String.eqb_spec v value) as [->|]; [|done].
    destruct (Nat.eqb_spec (length (gostrings.Split k "."))
                (length (gostrings.Split attr "."))) as [Hl|]; [|done].
    exfalso. by apply Hno.
Qed.

(** ** Joining what was split *)

Lemma Join_cons e rest sep :
  rest ≠ [] →
  gostrings.Join (e :: rest) sep =
  String.append e (String.append sep (gostrings.Join rest sep)).
Proof. destruct rest; done. Qed.

Lemma Join_Split s sep :
  gostrings.Join (gostrings.Split s sep) (String sep EmptyString) = s.
Proof.
  induction s as [|c s IH]; [done|].
  cbn [gostrings.Split]. destruct (Ascii.eqb_spec c sep) as [->|Hc].
  - rewrite Join_cons by apply Split_nonempty. simpl. by rewrite IH.
  - pose proof (Split_nonempty s sep) as Hne.
    destruct (gostrings.Split s sep) as [|p ps]; [done|].
    destruct ps as [|q ps]; [simpl in *; by rewrite IH|].
    rewrite Join_cons by done. rewrite Join_cons in IH by done.
    simpl. by rewrite <- IH.
Qed.

Lemma nested_scan_NotFound_fair rt attrParts values matchCount
    (attrs : gmap string string) :
  fair_attributes rt → attrParts ≠ [] → 0 < matchCount →
  nestedAttrsScan attrParts values matchCount (range_attributes rt attrs) ∅
    = NotFound ↔
  map_Forall (λ k _, ¬ overruns attrParts k) attrs ∧
  ∀ id, satisfiedCount attrParts values id (map_to_list attrs) < matchCount.
Proof.
  intros Hfa Hne Hpos. rewrite nestedAttrsScan_NotFound_iff by done.
  rewrite (range_safe_iff rt attrParts attrs Hfa).
  split; intros [Hsafe Hlt]; (split; [done|]); intros id; specialize (Hlt id).
  - by rewrite <- (satisfiedCount_Permutation _ _ _ _ _ (Hfa attrs)).
  - by rewrite (satisfiedCount_Permutation _ _ _ _ _ (Hfa attrs)).
Qed.

Lemma range_attributes_empty rt :
  fair_attributes rt → range_attributes rt ∅ = [].
Proof.
  intros Hfa. apply Permutation_nil_r. by rewrite (Hfa ∅), map_to_list_empty.
Qed.

(** ** The scalar check *)

(** X1.  The scalar check never panics, whatever the state, the pattern,
    the value and the entries the range delivers: the comparison of
    lengths before the loop keeps every index in range. *)
Theorem scalar_check_never_panics rt s res attr value :
  TestCheckTypeSetElemAttr res attr value rt s ≠ Panic.
Proof.
  unfold TestCheckTypeSetElemAttr. cbv zeta.
  destruct (terraform.Resources (terraform.RootModule s) !! res) as [rs|];
    [|done].
  destruct (terraform.Primary rs) as [is_|]; [|done].
  rewrite lookup_last_index.
  destruct (last (gostrings.Split attr ".")) as [l|] eqn:Hl.
  2:{ apply last_None in Hl. by apply Split_nonempty in Hl. }
  destruct (negb _); [done|].
  pose proof (elemAttrScan_spec (gostrings.Split attr ".") value
    (range_attributes rt (terraform.Attributes is_)) (Split_nonempty attr "."))
    as Hscan.
  destruct (elemAttrScan _ _ _); done.
Qed.

Lemma scalar_check_order_independent_witness :
  TestCheckTypeSetElemAttr "r" "rule.*" "80" forwards (stateOf "r" onePortAndId)
  = TestCheckTypeSetElemAttr "r" "rule.*" "80" backwards
      (stateOf "r" onePortAndId).
Proof.
  apply (scalar_check_order_independent forwards backwards).
  - intros m. reflexivity.
  - intros m. apply reverse_Permutation.
Defined.

(** X3.  The scalar check reads only the entries that hold the value
    looked for under a key with as many segments as the pattern: its
    outcome is the one it has when the range delivers no other entry. *)
Theorem scalar_check_reads_candidates_only res attr value rt s :
  TestCheckTypeSetElemAttr res attr value rt s =
  TestCheckTypeSetElemAttr res attr value
    (deliverOnly (scalarCandidate attr value) rt) s.
Proof.
  unfold TestCheckTypeSetElemAttr. cbv zeta.
  destruct (terraform.Resources (terraform.RootModule s) !! res) as [rs|];
    [|done].
  destruct (terraform.Primary rs) as [is_|]; [|done].
  destruct (gostrings.Split attr "." !! _) as [l|]; [|done].
  destruct (negb _); [done|].
  simpl range_attributes. by rewrite <- elemAttrScan_candidates.
Qed.

(** X4.  A success of the scalar check survives more attributes: when the
    attributes of the resource in one state are among those of the
    resource in another, a success on the first is a success on the
    second, in any fair orders. *)
Theorem scalar_check_success_survives_more_attributes
    rt rt' s s' res rs rs' is_ is_' attr value :
  fair_attributes rt → fair_attributes rt' →
  terraform.Resources (terraform.RootModule s) !! res = Some rs →
  terraform.Primary rs = Some is_ →
  terraform.Resources (terraform.RootModule s') !! res = Some rs' →
  terraform.Primary rs' = Some is_' →
  terraform.Attributes is_ ⊆ terraform.Attributes is_' →
  TestCheckTypeSetElemAttr res attr value rt s = Success →
  TestCheckTypeSetElemAttr res attr value rt' s' = Success.
Proof.
  intros Hfa Hfa' Hres Hprim Hres' Hprim' Hsub Hok.
  destruct (decide (endsInSentinel attr)) as [Hend|Hend].
  2:{ by rewrite (scalar_invalid rt s res rs is_ Hres Hprim attr value Hend)
        in Hok. }
  rewrite (scalar_valid rt s res rs is_ Hres Hprim attr value Hend) in Hok.
  rewrite (scalar_valid rt' s' res rs' is_' Hres' Hprim' attr value Hend).
  pose proof (elemAttrScan_spec (gostrings.Split attr ".") value
    (range_attributes rt (terraform.Attributes is_)) (Split_nonempty attr "."))
    as Hscan.
  pose proof (elemAttrScan_spec (gostrings.Split attr ".") value
    (range_attributes rt' (terraform.Attributes is_')) (Split_nonempty attr "."))
    as Hscan'.
  destruct (elemAttrScan _ _ (range_attributes rt _)); try done.
  destruct Hscan as ([k v] & He & Hhit).
  rewrite (Hfa _) in He. apply elem_of_map_to_list in He.
  apply (lookup_weaken _ _ _ _ He) in Hsub.
  destruct (elemAttrScan _ _ (range_attributes rt' _)); try done.
  exfalso. apply (Hscan' (k, v)); [|done].
  rewrite (Hfa' _). by apply elem_of_map_to_list.
Qed.

Lemma scalar_check_success_survives_more_attributes_witness :
  TestCheckTypeSetElemAttr "r" "rule.*" "80" backwards
    (stateOf "r" onePortAndId) = Success.
Proof.
  apply (scalar_check_success_survives_more_attributes forwards backwards
           (stateOf "r" onePort) (stateOf "r" onePortAndId) "r"
           {| terraform.Primary := Some {| terraform.Attributes := onePort |} |}
           {| terraform.Primary :=
                Some {| terraform.Attributes := onePortAndId |} |}
           {| terraform.Attributes := onePort |}
           {| terraform.Attributes := onePortAndId |} "rule.*" "80").
  - intros m. reflexivity.
  - intros m. apply reverse_Permutation.
  - vm_compute. reflexivity.
  - reflexivity.
  - vm_compute. reflexivity.
  - reflexivity.
  - apply insert_subseteq. vm_compute. reflexivity.
  - vm_compute. reflexivity.
Defined.

(** X5.  On a resource whose primary instance has no attributes, with a
    pattern ending in the sentinel, the scalar check fails with
    [ElementNotFound], and so does the nested check when a criterion has a
    non-empty value. *)
Theorem checks_fail_on_empty_attributes rt s res rs is_ attr value values :
  fair rt →
  terraform.Resources (terraform.RootModule s) !! res = Some rs →
  terraform.Primary rs = Some is_ →
  terraform.Attributes is_ = ∅ →
  endsInSentinel attr →
  TestCheckTypeSetElemAttr res attr value rt s =
    Failure (ElementNotFound res attr (WithValue value) ∅) ∧
  ((∃ k v, values !! k = Some v ∧ v ≠ "") →
   TestCheckTypeSetElemNestedAttrs res attr values rt s =
     Failure (ElementNotFound res attr (WithNestedAttrs values) ∅)).
Proof.
  intros [Hfv Hfa] Hres Hprim Hempty Hend. split.
  - rewrite (scalar_valid rt s res rs is_ Hres Hprim attr value Hend).
    by rewrite Hempty, (range_attributes_empty rt Hfa).
  - intros Hne. apply nonEmptyCount_pos in Hne.
    rewrite (nested_scan_form rt s res rs is_ attr values Hres Hprim Hfv Hend
               Hne).
    by rewrite Hempty, (range_attributes_empty rt Hfa).
Qed.

Lemma checks_fail_on_empty_attributes_witness :
  TestCheckTypeSetElemAttr "r" "rule.*" "80" forwards (stateOf "r" ∅) =
    Failure (ElementNotFound "r" "rule.*" (WithValue "80") ∅).
Proof.
  apply (checks_fail_on_empty_attributes forwards (stateOf "r" ∅) "r"
           {| terraform.Primary := Some {| terraform.Attributes := ∅ |} |}
           {| terraform.Attributes := ∅ |} "rule.*" "80" nameAndPort).
  - split; intros m; reflexivity.
  - vm_compute. reflexivity.
  - reflexivity.
  - reflexivity.
  - vm_compute. reflexivity.
Defined.

(** ** The nested check *)

(** X6.  Under a pattern of at most three segments the nested check never
    panics, whatever the state, the criteria and the entries the range
    delivers: a key that passes the test of three segments is then at
    least as long as the pattern. *)
Theorem nested_check_never_panics_up_to_three_segments rt s res attr values :
  length (gostrings.Split attr ".") ≤ 3 →
  TestCheckTypeSetElemNestedAttrs res attr values rt s ≠ Panic.
Proof.
  intros Hlen. unfold TestCheckTypeSetElemNestedAttrs. cbv zeta.
  destruct (terraform.Resources (terraform.RootModule s) !! res) as [rs|];
    [|done].
  destruct (terraform.Primary rs) as [is_|]; [|done].
  rewrite lookup_last_index.
  destruct (last (gostrings.Split attr ".")) as [l|] eqn:Hl.
  2:{ apply last_None in Hl. by apply Split_nonempty in Hl. }
  destruct (negb _); [done|].
  destruct (Nat.eqb_spec (countNonEmpty (range_values rt values) 0) 0)
    as [|Hnz]; [done|].
  pose proof (nestedAttrsScan_from_empty (gostrings.Split attr ".") values
    (countNonEmpty (range_values rt values) 0)
    (range_attributes rt (terraform.Attributes is_))
    (Split_nonempty attr ".") ltac:(lia)) as Hscan.
  destruct (nestedAttrsScan _ _ _ _ _); try done.
  destruct Hscan as (e & _ & Hge & Hlt & _). lia.
Qed.

Lemma nested_check_never_panics_up_to_three_segments_witness :
  TestCheckTypeSetElemNestedAttrs "r" "set.*" nameAndPort backwards
    (stateOf "r" shortKeyAndElement) ≠ Panic.
Proof.
  apply (nested_check_never_panics_up_to_three_segments backwards
           (stateOf "r" shortKeyAndElement) "r" "set.*" nameAndPort).
  vm_compute. lia.
Defined.

(** X7.  For a resource with a primary instance, a pattern ending in the
    sentinel and criteria with a non-empty value, the nested check reports
    [ElementNotFound] exactly when no key of the state overruns the pattern
    and no id has as many entries counting for it as there are non-empty
    criteria; the condition does not mention the order of the range. *)
Theorem nested_check_not_found_iff rt s res rs is_ attr values :
  fair rt →
  terraform.Resources (terraform.RootModule s) !! res = Some rs →
  terraform.Primary rs = Some is_ →
  endsInSentinel attr →
  (∃ k v, values !! k = Some v ∧ v ≠ "") →
  TestCheckTypeSetElemNestedAttrs res attr values rt s =
    Failure (ElementNotFound res attr (WithNestedAttrs values)
               (terraform.Attributes is_)) ↔
  map_Forall (λ k _, ¬ overruns (gostrings.Split attr ".") k)
    (terraform.Attributes is_) ∧
  ∀ id, satisfiedCount (gostrings.Split attr ".") values id
          (map_to_list (terraform.Attributes is_)) < nonEmptyCount values.
Proof.
  intros [Hfv Hfa] Hres Hprim Hend Hne. apply nonEmptyCount_pos in Hne.
  rewrite (nested_scan_form rt s res rs is_ attr values Hres Hprim Hfv Hend Hne).
  rewrite <- (nested_scan_NotFound_fair rt _ values _ _ Hfa
                (Split_nonempty attr ".") Hne).
  destruct (nestedAttrsScan _ _ _ _ _); split; done.
Qed.

Lemma nested_check_not_found_iff_witness :
  TestCheckTypeSetElemNestedAttrs "r" "set.*" nameAndPort forwards
    (stateOf "r" oneName)
  = Failure (ElementNotFound "r" "set.*" (WithNestedAttrs nameAndPort) oneName).
Proof.
  apply (nested_check_not_found_iff forwards (stateOf "r" oneName) "r"
           {| terraform.Primary := Some {| terraform.Attributes := oneName |} |}
           {| terraform.Attributes := oneName |} "set.*" nameAndPort).
  - split; intros m; reflexivity.
  - vm_compute. reflexivity.
  - reflexivity.
  - vm_compute. reflexivity.
  - exists "name", "a". split; [vm_compute; reflexivity|discriminate].
  - split.
    + apply (bool_decide_unpack _). vm_compute. exact I.
    + intros id. cbn [terraform.Attributes]. unfold oneName.
      rewrite map_to_list_singleton.
      pose proof (length_filter
        (satisfies (gostrings.Split "set.*" ".") nameAndPort id)
        [("set.0.name", "a")]) as Hle.
      unfold satisfiedCount.
      replace (nonEmptyCount nameAndPort) with 2 by (vm_compute; reflexivity).
      change (length [("set.0.name", "a")]) with 1 in Hle. lia.
Defined.

(** X8.  In two fair orders of the range the nested check gives the same
    outcome, or succeeds in one and panics in the other: an error it
    returns does not depend on the order. *)
Theorem nested_check_orders_differ_only_by_panic rt1 rt2 res attr values s :
  fair rt1 → fair rt2 →
  let o1 := TestCheckTypeSetElemNestedAttrs res attr values rt1 s in
  let o2 := TestCheckTypeSetElemNestedAttrs res attr values rt2 s in
  o1 = o2 ∨ (o1 = Success ∧ o2 = Panic) ∨ (o1 = Panic ∧ o2 = Success).
Proof.
  intros [Hv1 Ha1] [Hv2 Ha2]. cbv zeta.
  unfold TestCheckTypeSetElemNestedAttrs.
  destruct (terraform.Resources (terraform.RootModule s) !! res) as [rs|];
    [|by left].
  destruct (terraform.Primary rs) as [is_|]; [|by left].
  cbv zeta.
  destruct (gostrings.Split attr "." !! _) as [l|]; [|by left].
  destruct (negb _); [by left|].
  rewrite !countNonEmpty_fair by done.
  destruct (Nat.eqb_spec (nonEmptyCount values) 0) as [|Hnz]; [by left|].
  pose proof (nested_scan_NotFound_fair rt1 _ values (nonEmptyCount values)
    (terraform.Attributes is_) Ha1 (Split_nonempty attr ".") ltac:(lia)) as H1.
  pose proof (nested_scan_NotFound_fair rt2 _ values (nonEmptyCount values)
    (terraform.Attributes is_) Ha2 (Split_nonempty attr ".") ltac:(lia)) as H2.
  rewrite <- H2 in H1. clear H2.
  destruct (nestedAttrsScan _ _ _ (range_attributes rt1 _) _),
           (nestedAttrsScan _ _ _ (range_attributes rt2 _) _);
    try (by left); try (by right; left); try (by right; right);
    exfalso; destruct H1 as [H12 H21];
    try (by discriminate (H12 eq_refl)); by discriminate (H21 eq_refl).
Qed.

Lemma nested_check_orders_differ_only_by_panic_witness :
  let o1 := TestCheckTypeSetElemNestedAttrs "r" "a.b.c.*" onlyD forwards
              (stateOf "r" shortKeyAndElement) in
  let o2 := TestCheckTypeSetElemNestedAttrs "r" "a.b.c.*" onlyD backwards
              (stateOf "r" shortKeyAndElement) in
  o1 = o2 ∨ (o1 = Success ∧ o2 = Panic) ∨ (o1 = Panic ∧ o2 = Success).
Proof.
  apply (nested_check_orders_differ_only_by_panic forwards backwards "r"
           "a.b.c.*" onlyD (stateOf "r" shortKeyAndElement)).
  - split; intros m; reflexivity.
  - split; intros m; simpl; [reflexivity|apply reverse_Permutation].
Defined.

Lemma nested_check_order_independent_without_overrun_witness :
  TestCheckTypeSetElemNestedAttrs "r" "set.*" nameAndPort forwards
    (stateOf "r" twoElements)
  = TestCheckTypeSetElemNestedAttrs "r" "set.*" nameAndPort backwards
      (stateOf "r" twoElements).
Proof.
  apply (nested_check_order_independent_without_overrun forwards backwards
           "r" "set.*" nameAndPort (stateOf "r" twoElements)).
  - split; intros m; reflexivity.
  - split; intros m; simpl; [reflexivity|apply reverse_Permutation].
  - intros rs is_ k v _ _ _ (Hge & Hlt & _).
    change (length (gostrings.Split "set.*" ".")) with 2 in Hlt. lia.
Defined.

(** X10.  When a key of the state overruns the pattern and no id has as
    many entries counting for it as there are non-empty criteria, the
    nested check panics in every fair order of the range. *)
Theorem nested_check_panics_on_overrun_without_match
    rt s res rs is_ attr values k v :
  fair rt →
  terraform.Resources (terraform.RootModule s) !! res = Some rs →
  terraform.Primary rs = Some is_ →
  endsInSentinel attr →
  (∃ k' v', values !! k' = Some v' ∧ v' ≠ "") →
  terraform.Attributes is_ !! k = Some v →
  overruns (gostrings.Split attr ".") k →
  (∀ id, satisfiedCount (gostrings.Split attr ".") values id
           (map_to_list (terraform.Attributes is_)) < nonEmptyCount values) →
  TestCheckTypeSetElemNestedAttrs res attr values rt s = Panic.
Proof.
  intros [Hfv Hfa] Hres Hprim Hend Hne Hk Ho Hlt.
  apply nonEmptyCount_pos in Hne.
  rewrite (nested_scan_form rt s res rs is_ attr values Hres Hprim Hfv Hend Hne).
  pose proof (nestedAttrsScan_from_empty (gostrings.Split attr ".") values
    (nonEmptyCount values) (range_attributes rt (terraform.Attributes is_))
    (Split_nonempty attr ".") Hne) as Hscan.
  destruct (nestedAttrsScan _ _ _ _ _) eqn:Hres_scan.
  - destruct Hscan as [id Hid]. specialize (Hlt id).
    rewrite (satisfiedCount_Permutation _ _ _ _ _ (Hfa _)) in Hid. lia.
  - apply nested_scan_NotFound_fair in Hres_scan as [Hsafe _];
      [|done|apply Split_nonempty|done].
    by apply Hsafe in Hk.
  - done.
Qed.

Lemma nested_check_panics_on_overrun_without_match_witness :
  TestCheckTypeSetElemNestedAttrs "r" "a.b.c.*" onlyD backwards
    (stateOf "r" shortKey) = Panic.
Proof.
  apply (nested_check_panics_on_overrun_without_match backwards
           (stateOf "r" shortKey) "r"
           {| terraform.Primary := Some {| terraform.Attributes := shortKey |} |}
           {| terraform.Attributes := shortKey |} "a.b.c.*" onlyD "a.b.c" "x").
  - split; intros m; simpl; [reflexivity|apply reverse_Permutation].
  - vm_compute. reflexivity.
  - reflexivity.
  - vm_compute. reflexivity.
  - exists "d", "x". split; [vm_compute; reflexivity|discriminate].
  - vm_compute. reflexivity.
  - apply (bool_decide_unpack _). vm_compute. exact I.
  - intros id. cbn [terraform.Attributes]. unfold shortKey.
    rewrite map_to_list_singleton. unfold satisfiedCount.
    rewrite filter_cons_False.
    + vm_compute. lia.
    + intros (_ & [Hall _] & _). apply Forall2_length in Hall.
      vm_compute in Hall. discriminate.
Defined.

(** X11.  A success of the nested check survives one more criterion with
    the empty string as expected value, for a key the criteria did not
    have, in the same order of the range. *)
Theorem nested_check_success_survives_empty_criterion rt s res attr values k :
  fair_values rt →
  values !! k = None →
  TestCheckTypeSetElemNestedAttrs res attr values rt s = Success →
  TestCheckTypeSetElemNestedAttrs res attr (<[k := ""]> values) rt s = Success.
Proof.
  intros Hfv Hk Hok.
  apply nested_success_inv in Hok as (rs & is_ & Hres & Hprim & Hend & Hnz & Hscan).
  rewrite (countNonEmpty_fair _ _ Hfv) in Hnz, Hscan.
  rewrite (nested_scan_form rt s res rs is_ attr _ Hres Hprim Hfv Hend)
    by (rewrite nonEmptyCount_insert_empty by done; lia).
  rewrite nonEmptyCount_insert_empty by done.
  rewrite (nestedAttrsScan_more_criteria (gostrings.Split attr ".") values
             (<[k := ""]> values) (nonEmptyCount values) _
             (Split_nonempty attr ".") (insert_subseteq values k "" Hk)
             ∅ ∅); [done| |done|done].
  intros id. rewrite counter_empty. lia.
Qed.

Lemma nested_check_success_survives_empty_criterion_witness :
  TestCheckTypeSetElemNestedAttrs "r" "set.*" (<["tag" := ""]> nameAndPort)
    forwards (stateOf "r" twoElements) = Success.
Proof.
  apply (nested_check_success_survives_empty_criterion forwards
           (stateOf "r" twoElements) "r" "set.*" nameAndPort "tag").
  - intros m. reflexivity.
  - vm_compute. reflexivity.
  - vm_compute. reflexivity.
Defined.

Lemma afterDots_Split n s :
  afterDots n s =
  if decide (n < length (gostrings.Split s "."))
  then Some (gostrings.Join (drop n (gostrings.Split s ".")) ".")
  else None.
Proof.
  revert n. induction s as [|c s IH]; intros n.
  { destruct n as [|n]; [done|]. cbn [afterDots gostrings.Split length].
    destruct (decide (S n < 1)); [lia|done]. }
  destruct n as [|n].
  { cbn [afterDots]. pose proof (Split_length (String c s) ".").
    rewrite decide_True by lia. by rewrite drop_0, Join_Split. }
  cbn [afterDots gostrings.Split].
  destruct (Ascii.eqb_spec c ".") as [->|Hc].
  - rewrite IH. cbn [length drop].
    destruct (decide (n < length (gostrings.Split s "."))).
    + by rewrite decide_True by lia.
    + by rewrite decide_False by lia.
  - rewrite IH. pose proof (Split_nonempty s ".") as Hne.
    destruct (gostrings.Split s ".") as [|p ps]; [done|].
    cbn [length drop].
    destruct (decide (S n < S (length ps))); done.
Qed.

Example afterDots_nested : afterDots 2 "rule.0.from.port" = Some "from.port".
Proof. reflexivity. Qed.

Example afterDots_too_few : afterDots 2 "rule.0" = None.
Proof. reflexivity. Qed.

(** X12.  For an entry whose key has three segments or more and agrees
    with the pattern, the nested scan adds one to the counter of the id
    (the segment at the pattern's last position) exactly when the criteria
    hold the entry's value under the text of the key after its [n]-th dot,
    [n] the number of segments of the pattern (the empty text when the key
    has only [n - 1] dots); otherwise it goes on with the counters as they
    were. *)
Theorem nested_scan_looks_up_text_after_dots
    attrParts values matchCount stateKey stateValue entries matches :
  attrParts ≠ [] →
  3 ≤ length (gostrings.Split stateKey ".") →
  Forall2 agrees attrParts
    (take (length attrParts) (gostrings.Split stateKey ".")) →
  ∃ id,
    gostrings.Split stateKey "." !! (length attrParts - 1) = Some id ∧
    nestedAttrsScan attrParts values matchCount
      ((stateKey, stateValue) :: entries) matches =
    if decide (values !! default "" (afterDots (length attrParts) stateKey)
               = Some stateValue)
    then
      if counter matches id + 1 =? matchCount then Found
      else nestedAttrsScan attrParts values matchCount entries
             (<[id := counter matches id + 1]> matches)
    else nestedAttrsScan attrParts values matchCount entries matches.
Proof.
  intros Hne Hge Hall.
  assert (Hlen : length attrParts ≤ length (gostrings.Split stateKey ".")).
  { apply Forall2_length in Hall. rewrite length_take in Hall. lia. }
  destruct (gostrings.Split stateKey "." !! (length attrParts - 1))
    as [id|] eqn:Hid.
  2:{ apply lookup_ge_None in Hid. destruct attrParts; [done|simpl in *; lia]. }
  exists id. split; [done|].
  assert (Htext : default "" (afterDots (length attrParts) stateKey) =
                  gostrings.Join
                    (drop (length attrParts) (gostrings.Split stateKey "."))
                    ".").
  { rewrite afterDots_Split.
    destruct (decide (length attrParts
                      < length (gostrings.Split stateKey "."))); [done|].
    by rewrite drop_ge by lia. }
  rewrite Htext, nestedAttrsScan_cons by done.
  unfold entryEffect. cbn [fst].
  rewrite decide_False by (intros (_ & Hlt & _); lia).
  rewrite Hid.
  destruct (decide (values !! _ = Some stateValue)) as [Hv|Hv].
  - rewrite decide_True; [done|]. by split; [|split].
  - rewrite decide_False; [done|]. by intros (_ & _ & Hv').
Qed.

Lemma nested_scan_looks_up_text_after_dots_witness :
  ∃ id,
    gostrings.Split "rule.0.from.port" "." !! 1 = Some id ∧
    nestedAttrsScan (gostrings.Split "rule.*" ".") {["from.port" := "80"]} 1
      [("rule.0.from.port", "80")] ∅ =
    if decide (({["from.port" := "80"]} : gmap string string)
                 !! default "" (afterDots 2 "rule.0.from.port") = Some "80")
    then
      if counter ∅ id + 1 =? 1 then Found
      else nestedAttrsScan (gostrings.Split "rule.*" ".")
             {["from.port" := "80"]} 1 [] (<[id := counter ∅ id + 1]> ∅)
    else nestedAttrsScan (gostrings.Split "rule.*" ".")
           {["from.port" := "80"]} 1 [] ∅.
Proof.
  apply (nested_scan_looks_up_text_after_dots (gostrings.Split "rule.*" ".")
           {["from.port" := "80"]} 1 "rule.0.from.port" "80" [] ∅).
  - discriminate.
  - vm_compute. lia.
  - apply (bool_decide_unpack _). vm_compute. exact I.
Defined.

Lemma satisfiedCount_submseteq attrParts values id (l1 l2 : list (string * string)) :
  l1 ⊆+ l2 →
  satisfiedCount attrParts values id l1 ≤ satisfiedCount attrParts values id l2.
Proof.
  intros Hsub. induction Hsub as [|x l1 l2 _ IH|x y l|x l1 l2 _ IH|l1 l2 l3 _ IH1 _ IH2].
  - done.
  - rewrite !satisfiedCount_cons. lia.
  - rewrite !satisfiedCount_cons. lia.
  - rewrite satisfiedCount_cons. lia.
  - lia.
Qed.

(** X13.  A success of the nested check survives more attributes, as long
    as no key of the larger state overruns the pattern: when the
    attributes of the resource in one state are among those of the
    resource in another, a success on the first is a success on the
    second, in any fair orders. *)
Theorem nested_check_success_survives_more_attributes
    rt rt' s s' res rs rs' is_ is_' attr values :
  fair rt → fair rt' →
  terraform.Resources (terraform.RootModule s) !! res = Some rs →
  terraform.Primary rs = Some is_ →
  terraform.Resources (terraform.RootModule s') !! res = Some rs' →
  terraform.Primary rs' = Some is_' →
  terraform.Attributes is_ ⊆ terraform.Attributes is_' →
  map_Forall (λ k _, ¬ overruns (gostrings.Split attr ".") k)
    (terraform.Attributes is_') →
  TestCheckTypeSetElemNestedAttrs res attr values rt s = Success →
  TestCheckTypeSetElemNestedAttrs res attr values rt' s' = Success.
Proof.
  intros [Hfv Hfa] Hfair' Hres Hprim Hres' Hprim' Hsub Hsafe Hok.
  apply nested_success_inv in Hok
    as (rs0 & is0 & Hres0 & Hprim0 & Hend & Hnz & Hscan).
  assert (rs0 = rs) as -> by congruence.
  assert (is0 = is_) as -> by congruence.
  rewrite (countNonEmpty_fair _ _ Hfv) in Hnz, Hscan.
  assert (Hpos : 0 < nonEmptyCount values) by lia.
  pose proof (nestedAttrsScan_from_empty (gostrings.Split attr ".") values
    (nonEmptyCount values) (range_attributes rt (terraform.Attributes is_))
    (Split_nonempty attr ".") Hpos) as Hfound.
  rewrite Hscan in Hfound. destruct Hfound as [id Hid].
  rewrite (satisfiedCount_Permutation _ _ _ _ _ (Hfa _)) in Hid.
  pose proof (satisfiedCount_submseteq (gostrings.Split attr ".") values id
    _ _ (map_to_list_submseteq _ _ Hsub)) as Hmono.
  pose proof (nested_outcome rt' s' res rs' is_' attr values Hres' Hprim' Hfair'
    Hend Hpos) as Hout. cbv zeta in Hout.
  destruct (TestCheckTypeSetElemNestedAttrs res attr values rt' s') as [|e|].
  - done.
  - destruct Hout as [_ Hlt]. specialize (Hlt id). lia.
  - destruct Hout as (k & v & Hk & Ho). by apply Hsafe in Hk.
Qed.

Lemma nested_check_success_survives_more_attributes_witness :
  TestCheckTypeSetElemNestedAttrs "r" "set.*" onlyName backwards
    (stateOf "r" twoElements) = Success.
Proof.
  apply (nested_check_success_survives_more_attributes forwards backwards
           (stateOf "r" oneName) (stateOf "r" twoElements) "r"
           {| terraform.Primary := Some {| terraform.Attributes := oneName |} |}
           {| terraform.Primary := Some {| terraform.Attributes := twoElements |} |}
           {| terraform.Attributes := oneName |}
           {| terraform.Attributes := twoElements |} "set.*" onlyName).
  - split; intros m; reflexivity.
  - split; intros m; simpl; [reflexivity|apply reverse_Permutation].
  - vm_compute. reflexivity.
  - reflexivity.
  - vm_compute. reflexivity.
  - reflexivity.
  - apply (bool_decide_unpack _). vm_compute. exact I.
  - apply (bool_decide_unpack _). vm_compute. exact I.
  - vm_compute. reflexivity.
Defined.
